(** * sloth.annotations.container: annotation containers and their factory

    A shallow embedding of [sloth/annotations/container.py] and of the
    Python standard-library functions it calls ([str.strip], [str.split],
    [int], [os.path.dirname], [os.path.join], [fnmatch.fnmatch]), followed
    by the properties of the factory, of the load/save protocol and of the
    line-oriented parsers.

    Conventions.  Python [str] values are [string]s (one [ascii] per code
    point below 256); the semantics followed is CPython 3 on a POSIX
    platform, so [os.path] is [posixpath] and [os.path.normcase] is the
    identity.  A Python exception is a value of [exn]; a call that can
    raise returns a [result].  Methods of a container run in the monad
    [M], which threads the object ([self]) and the outside world (files,
    and a trace of the effects performed). *)

From Stdlib Require Import String Ascii List ZArith Lia Bool.
Import ListNotations.
Local Open Scope list_scope.
Local Open Scope string_scope.
Set Warnings "-register-all".

(* ================================================================== *)
(** * Python values, exceptions and results *)
(* ================================================================== *)

(** The values the containers build: [None], [str], [int], [list] and
    [dict].  A [dict] keeps its items in insertion order. *)
Inductive pyval : Type :=
| PNone
| PStr (s : string)
| PInt (z : Z)
| PList (l : list pyval)
| PDict (d : list (string * pyval)).

(** The exceptions that can reach a caller of this module.  The three
    first ones come from [sloth.core.exceptions]; the others are raised by
    the interpreter or by a library. *)
Inductive exn : Type :=
| ImproperlyConfigured (msg : string)
| NotImplementedException (msg : string)
| InvalidArgumentException (msg : string)
| TypeError (msg : string)
| IndexError (msg : string)
| ValueError (literal : string)
| IOError (path : string)
| LibraryError (msg : string).

Inductive result (A : Type) : Type :=
| Ok (a : A)
| Raise (e : exn).
Arguments Ok {A} a.
Arguments Raise {A} e.

Definition is_ok {A} (r : result A) : bool :=
  match r with Ok _ => true | Raise _ => false end.

Definition rbind {A B} (r : result A) (k : A -> result B) : result B :=
  match r with
  | Ok a => k a
  | Raise e => Raise e
  end.

(** [d[key] = v] on a dict: replaces the value of an existing key in
    place, appends a new key at the end. *)
Fixpoint dict_set (d : list (string * pyval)) (key : string) (v : pyval)
  : list (string * pyval) :=
  match d with
  | [] => [(key, v)]
  | (k, x) :: d' =>
      if String.eqb k key then (k, v) :: d' else (k, x) :: dict_set d' key v
  end.

Fixpoint dict_get (d : list (string * pyval)) (key : string) : option pyval :=
  match d with
  | [] => None
  | (k, x) :: d' => if String.eqb k key then Some x else dict_get d' key
  end.

(** Field of a record, for reading results. *)
Definition field (v : pyval) (key : string) : option pyval :=
  match v with
  | PDict d => dict_get d key
  | _ => None
  end.

(* ================================================================== *)
(** * Strings: the [str] methods the parsers use *)
(* ================================================================== *)

Module Str.

Definition nl_char : ascii := ascii_of_nat 10.
Definition nl : string := String nl_char EmptyString.

Definition is_empty (s : string) : bool :=
  match s with EmptyString => true | String _ _ => false end.

(** [str.isspace] on one character: TAB, LF, VT, FF, CR, the four
    separators FS GS RS US, SPACE, NEL and NBSP. *)
Definition is_space (c : ascii) : bool :=
  let n := nat_of_ascii c in
  ((9 <=? n) && (n <=? 13) || (28 <=? n) && (n <=? 32)
   || (n =? 133) || (n =? 160))%nat.

(** White space for [int]: as [str.isspace], without the four
    separators FS GS RS US. *)
Definition is_int_space (c : ascii) : bool :=
  let n := nat_of_ascii c in
  ((9 <=? n) && (n <=? 13) || (n =? 32) || (n =? 133) || (n =? 160))%nat.

Fixpoint lstrip_by (sp : ascii -> bool) (s : string) : string :=
  match s with
  | EmptyString => EmptyString
  | String c s' => if sp c then lstrip_by sp s' else s
  end.

Fixpoint rstrip_by (sp : ascii -> bool) (s : string) : string :=
  match s with
  | EmptyString => EmptyString
  | String c s' =>
      let r := rstrip_by sp s' in
      if is_empty r && sp c then EmptyString else String c r
  end.

(** [s.strip()] *)
Definition strip (s : string) : string :=
  rstrip_by is_space (lstrip_by is_space s).

(** [s.split()]: the maximal runs of non-space characters, in order. *)
Fixpoint split_from (cur : string) (s : string) : list string :=
  match s with
  | EmptyString => if is_empty cur then [] else [cur]
  | String c s' =>
      if is_space c
      then (if is_empty cur then split_from EmptyString s'
            else cur :: split_from EmptyString s')
      else split_from (cur ++ String c EmptyString) s'
  end.

Definition split (s : string) : list string := split_from EmptyString s.

(** Iteration over a text file: the lines, each with its terminating
    newline when it has one. *)
Fixpoint lines_from (cur : string) (s : string) : list string :=
  match s with
  | EmptyString => if is_empty cur then [] else [cur]
  | String c s' =>
      if Ascii.eqb c nl_char
      then (cur ++ nl) :: lines_from EmptyString s'
      else lines_from (cur ++ String c EmptyString) s'
  end.

Definition readlines (text : string) : list string :=
  lines_from EmptyString text.

Definition startswith (s : string) (c : ascii) : bool :=
  match s with
  | String d _ => Ascii.eqb d c
  | EmptyString => false
  end.

Fixpoint endswith (s : string) (c : ascii) : bool :=
  match s with
  | EmptyString => false
  | String d EmptyString => Ascii.eqb d c
  | String _ s' => endswith s' c
  end.

(** [s.rfind(c)]: the index of the last occurrence, -1 when absent. *)
Fixpoint rfind (s : string) (c : ascii) : Z :=
  match s with
  | EmptyString => (-1)%Z
  | String d s' =>
      let r := rfind s' c in
      if (0 <=? r)%Z then (r + 1)%Z
      else if Ascii.eqb d c then 0%Z else (-1)%Z
  end.

(** [s[:i]] for [0 <= i]. *)
Definition slice_to (s : string) (i : Z) : string :=
  substring 0 (Z.to_nat i) s.

(** [c * n] *)
Fixpoint repeat (c : ascii) (n : nat) : string :=
  match n with
  | O => EmptyString
  | S n' => String c (repeat c n')
  end.

(** [s.rstrip(c)] for a one-character argument. *)
Definition rstrip_char (s : string) (c : ascii) : string :=
  rstrip_by (fun d => Ascii.eqb d c) s.

Definition is_digit (c : ascii) : bool :=
  let n := nat_of_ascii c in ((48 <=? n) && (n <=? 57))%nat.

Definition digit_value (c : ascii) : Z := Z.of_nat (nat_of_ascii c - 48).

(** The digits of an integer literal: decimal digits, with single
    underscores allowed between two digits.  [prev] tells whether the
    previous character was a digit. *)
Fixpoint digits (acc : Z) (prev : bool) (s : string) : option Z :=
  match s with
  | EmptyString => if prev then Some acc else None
  | String c s' =>
      if is_digit c then digits (acc * 10 + digit_value c)%Z true s'
      else if Ascii.eqb c "_"%char
           then (if prev then digits acc false s' else None)
           else None
  end.

(** [int(s)] in base 10: surrounding white space is dropped, one sign
    is allowed before the digits, anything else raises [ValueError].  (The interpreter's
    configurable limit on the number of digits is not modelled.) *)
Definition int (s : string) : result Z :=
  let t := rstrip_by is_int_space (lstrip_by is_int_space s) in
  let r :=
    match t with
    | String c t' =>
        if Ascii.eqb c "-"%char then option_map Z.opp (digits 0 false t')
        else if Ascii.eqb c "+"%char then digits 0 false t'
        else digits 0 false t
    | EmptyString => digits 0 false t
    end in
  match r with
  | Some z => Ok z
  | None => Raise (ValueError s)
  end.

End Str.

(** [l[i]] on a list: [IndexError] out of range. *)
Definition getitem {A} (l : list A) (i : nat) : result A :=
  match nth_error l i with
  | Some x => Ok x
  | None => Raise (IndexError "list index out of range")
  end.

(* ================================================================== *)
(** * [os.path] on POSIX *)
(* ================================================================== *)

Module Posixpath.

Definition sep : ascii := "/"%char.

(** [posixpath.dirname]:
<<
    i = p.rfind(sep) + 1
    head = p[:i]
    if head and head != sep*len(head):
        head = head.rstrip(sep)
    return head
>> *)
Definition dirname (p : string) : string :=
  let i := (Str.rfind p sep + 1)%Z in
  let head := Str.slice_to p i in
  if negb (Str.is_empty head)
     && negb (String.eqb head (Str.repeat sep (String.length head)))
  then Str.rstrip_char head sep
  else head.

(** [posixpath.join(a, b)]:
<<
    path = a
    if b.startswith(sep):            path = b
    elif not path or path.endswith(sep):  path += b
    else:                            path += sep + b
>> *)
Definition join (a b : string) : string :=
  if Str.startswith b sep then b
  else if Str.is_empty a || Str.endswith a sep then a ++ b
  else a ++ String sep EmptyString ++ b.

Definition isabs (p : string) : bool := Str.startswith p sep.

End Posixpath.

(* ================================================================== *)
(** * [fnmatch.fnmatch] *)
(* ================================================================== *)

(** Shell-style patterns as [fnmatch.translate] reads them: [*], [?],
    [[seq]], [[!seq]]; a [[] without a closing bracket is an ordinary
    character; inside brackets [a-b] is a range unless the hyphen is the
    first or the last character, and a range whose bounds are in the wrong
    order contains nothing.  The match is on the whole name and is case
    sensitive ([os.path.normcase] does nothing on POSIX). *)
Module Fnmatch.

Inductive member : Type :=
| Single (c : ascii)
| Range (lo hi : ascii).

Inductive tok : Type :=
| Star
| AnyChar
| Lit (c : ascii)
| Class (negated : bool) (members : list member).

(** The characters up to the first closing bracket, and what follows
    it. *)
Fixpoint until_close (p : list ascii) : option (list ascii * list ascii) :=
  match p with
  | [] => None
  | c :: p' =>
      if Ascii.eqb c "]"%char then Some ([], p')
      else match until_close p' with
           | Some (stuff, rest) => Some (c :: stuff, rest)
           | None => None
           end
  end.

(** After an opening bracket: an optional [!], an optional [[]] taken
    literally, then everything up to the closing bracket. *)
Definition bracket (p : list ascii) : option (list ascii * list ascii) :=
  let '(pre1, p1) :=
    match p with
    | c :: p' => if Ascii.eqb c "!"%char then ([c], p') else ([], p)
    | [] => ([], p)
    end in
  let '(pre2, p2) :=
    match p1 with
    | c :: p' => if Ascii.eqb c "]"%char then ([c], p') else ([], p1)
    | [] => ([], p1)
    end in
  match until_close p2 with
  | Some (stuff, rest) => Some ((pre1 ++ pre2 ++ stuff)%list, rest)
  | None => None
  end.

Fixpoint members_of (stuff : list ascii) : list member :=
  match stuff with
  | [] => []
  | c :: rest =>
      match rest with
      | h :: d :: rest' =>
          if Ascii.eqb h "-"%char then Range c d :: members_of rest'
          else Single c :: members_of rest
      | _ => Single c :: members_of rest
      end
  end.

Definition class_of (stuff : list ascii) : tok :=
  match stuff with
  | c :: stuff' =>
      if Ascii.eqb c "!"%char then Class true (members_of stuff')
      else Class false (members_of stuff)
  | [] => Class false []
  end.

Fixpoint tokens (fuel : nat) (p : list ascii) : list tok :=
  match fuel with
  | O => []
  | S fuel' =>
      match p with
      | [] => []
      | c :: p' =>
          if Ascii.eqb c "*"%char then Star :: tokens fuel' p'
          else if Ascii.eqb c "?"%char then AnyChar :: tokens fuel' p'
          else if Ascii.eqb c "["%char then
            match bracket p' with
            | Some (stuff, rest) => class_of stuff :: tokens fuel' rest
            | None => Lit c :: tokens fuel' p'
            end
          else Lit c :: tokens fuel' p'
      end
  end.

(** Every step consumes a character, so the length of the pattern is
    fuel enough (lemma [tokens_fuel]). *)
Definition translate (pat : string) : list tok :=
  let p := list_ascii_of_string pat in
  tokens (List.length p) p.

Definition in_member (c : ascii) (i : member) : bool :=
  match i with
  | Single d => Ascii.eqb c d
  | Range lo hi =>
      ((nat_of_ascii lo <=? nat_of_ascii c)
       && (nat_of_ascii c <=? nat_of_ascii hi))%nat
  end.

Definition in_class (negated : bool) (members : list member) (c : ascii) : bool :=
  xorb negated (existsb (in_member c) members).

(** Matching of the whole name. *)
Fixpoint matches (ts : list tok) : list ascii -> bool :=
  match ts with
  | [] => fun s => match s with [] => true | _ :: _ => false end
  | t :: ts' =>
      match t with
      | Star =>
          fix star (s : list ascii) : bool :=
            matches ts' s
            || match s with
               | [] => false
               | _ :: s' => star s'
               end
      | AnyChar =>
          fun s => match s with [] => false | _ :: s' => matches ts' s' end
      | Lit c =>
          fun s =>
            match s with
            | [] => false
            | d :: s' => Ascii.eqb d c && matches ts' s'
            end
      | Class negated members =>
          fun s =>
            match s with
            | [] => false
            | d :: s' => in_class negated members d && matches ts' s'
            end
      end
  end.

(** [fnmatch.fnmatch(name, pat)] *)
Definition fnmatch (name pat : string) : bool :=
  matches (translate pat) (list_ascii_of_string name).

End Fnmatch.

(* ================================================================== *)
(** * The outside world and the method monad *)
(* ================================================================== *)

Inductive mode : Type := ModeR | ModeRB | ModeW | ModeWB.

Definition is_write (m : mode) : bool :=
  match m with ModeW | ModeWB => true | ModeR | ModeRB => false end.

(** What a method does to the outside, in the order it does it. *)
Inductive event : Type :=
| EvOpen (path : string) (m : mode)   (* open(path, m), successful or not *)
| EvClock                             (* time.time() *)
| EvLogInfo (path : string).          (* LOG.info("Loaded annotations from ...") *)

(** The files (path and text, the most recent binding of a path first),
    the paths that cannot be opened for writing, and the trace of the
    events so far.  The text of a file is what the file object delivers
    (after decoding and newline translation). *)
Record world : Type := mkWorld {
  files : list (string * string);
  readonly : list string;
  trace : list event
}.

Fixpoint lookup (files : list (string * string)) (path : string) : option string :=
  match files with
  | [] => None
  | (p, text) :: files' => if String.eqb p path then Some text else lookup files' path
  end.

Definition mem (path : string) (l : list string) : bool :=
  existsb (String.eqb path) l.

Inductive kind : Type :=
| AnnotationContainer
| PickleContainer
| JsonContainer
| YamlContainer
| FileNameListContainer
| FeretContainer.

(** A container object: its class and its attributes.  [basedir_] exists
    only once [FileNameListContainer.parseFromFile] has run. *)
Record container : Type := mkContainer {
  cls : kind;
  filename_ : option string;
  annotations_ : list pyval;
  basedir_ : option string
}.

Record state : Type := mkState {
  self : container;
  env : world
}.

(** A method: it may change the object and the world, and returns or
    raises.  Nothing is rolled back when it raises. *)
Definition M (A : Type) : Type := state -> state * result A.

Definition ret {A} (a : A) : M A := fun s => (s, Ok a).

Definition raise {A} (e : exn) : M A := fun s => (s, Raise e).

Definition bind {A B} (m : M A) (k : A -> M B) : M B :=
  fun s =>
    match m s with
    | (s', Ok a) => k a s'
    | (s', Raise e) => (s', Raise e)
    end.

Notation "x <- m ;; k" := (bind m (fun x => k))
  (at level 61, m at next level, right associativity).
Notation "m ;;; k" := (bind m (fun _ => k))
  (at level 61, right associativity).

Definition lift {A} (r : result A) : M A := fun s => (s, r).

Definition emit (e : event) : M unit :=
  fun s =>
    let w := env s in
    (mkState (self s) (mkWorld (files w) (readonly w) (trace w ++ [e])%list), Ok tt).

Definition set_filename_ (fn : option string) : M unit :=
  fun s =>
    let c := self s in
    (mkState (mkContainer (cls c) fn (annotations_ c) (basedir_ c)) (env s), Ok tt).

Definition set_basedir_ (d : string) : M unit :=
  fun s =>
    let c := self s in
    (mkState (mkContainer (cls c) (filename_ c) (annotations_ c) (Some d)) (env s), Ok tt).

Definition put_file (path text : string) : M unit :=
  fun s =>
    let w := env s in
    (mkState (self s) (mkWorld ((path, text) :: files w) (readonly w) (trace w)), Ok tt).

(** An open file: the text to read, or the path to write to. *)
Inductive file : Type :=
| FileR (text : string)
| FileW (path : string).

(** [open(name, m)].  [None] is not a path ([TypeError], before the file
    system is touched).  Reading needs an existing file; writing needs a
    non-empty path that can be opened, and empties the file. *)
Definition open (name : option string) (m : mode) : M file :=
  match name with
  | None => raise (TypeError "expected str, bytes or os.PathLike object, not NoneType")
  | Some path =>
      emit (EvOpen path m) ;;;
      fun s =>
        if is_write m then
          if Str.is_empty path || mem path (readonly (env s))
          then raise (IOError path) s
          else (put_file path EmptyString ;;; ret (FileW path)) s
        else
          match lookup (files (env s)) path with
          | Some text =>
              if Str.is_empty path then raise (IOError path) s
              else ret (FileR text) s
          | None => raise (IOError path) s
          end
  end.

(** Everything the file has to read. *)
Definition read (f : file) : M string :=
  match f with
  | FileR text => ret text
  | FileW _ => raise (LibraryError "not readable")
  end.

(** Writing replaces the text of the file.  (The methods never close
    their files; the text is taken to reach the file when the method
    returns, as it does when CPython drops the file object.) *)
Definition write (f : file) (text : string) : M unit :=
  match f with
  | FileW path => put_file path text
  | FileR _ => raise (LibraryError "not writable")
  end.

(** The serialisation libraries ([pickle], [json], [yaml]) are not part
    of the repository.  [pickle.load], and [yaml.load] with its default
    loader, run the callables that the file names: loading may do
    anything to the outside world (create or change files, read the
    clock), and what it returns may depend on the world as well as on the
    text.  So [loads] takes the world and gives it back.  Dumping the data
    of [pyval] runs no foreign code: [dumps] is a function of the value. *)
Record codec : Type := mkCodec {
  loads : string -> world -> world * result pyval;
  dumps : pyval -> result string
}.

(** [json.load] with the default decoder runs no callable: it is a
    function of the text. *)
Record pure_codec : Type := mkPureCodec {
  ploads : string -> result pyval;
  pdumps : pyval -> result string
}.

Definition of_pure (c : pure_codec) : codec :=
  mkCodec (fun text w => (w, ploads c text)) (pdumps c).

Record libraries : Type := mkLibraries {
  pickle : codec;
  json : pure_codec;      (* pdumps is json.dumps(., indent=4) *)
  yaml : codec
}.

(** The library at work on a text, in the current world. *)
Definition lib_loads (c : codec) (text : string) : M pyval :=
  fun s =>
    let '(w, r) := loads c text (env s) in
    (mkState (self s) w, r).

(** [lib.load(f)] and [lib.dump(value, f)] *)
Definition codec_load (c : codec) (f : file) : M pyval :=
  text <- read f ;; lib_loads c text.

Definition codec_dump (c : codec) (v : pyval) (f : file) : M unit :=
  text <- lift (dumps c v) ;; write f text.

(** Calling the constant [NotImplemented], which is not callable: the
    interpreter raises [TypeError] before any [raise] statement runs. *)
Definition call_NotImplemented (msg : string) : result exn :=
  Raise (TypeError "'NotImplementedType' object is not callable").

(** [raise e] where the expression [e] is evaluated first. *)
Definition raise_expr {A} (e : result exn) : M A :=
  match e with
  | Ok x => raise x
  | Raise x => raise x
  end.

(* ================================================================== *)
(** * The containers *)
(* ================================================================== *)

(** [not filename] for a filename that is [None] or a [str]. *)
Definition py_not (filename : option string) : bool :=
  match filename with
  | None => true
  | Some s => Str.is_empty s
  end.

(** [clear()]: on a new or an existing object. *)
Definition clear (c : container) : container :=
  mkContainer (cls c) None [] (basedir_ c).

(** [k()]: the constructor of class [k]. *)
Definition new (k : kind) : container :=
  clear (mkContainer k None [] None).

Definition filename (c : container) : option string := filename_ c.

(** [{'type': 'point', 'class': class, 'x': x, 'y': y}] *)
Definition point (class : string) (x y : Z) : pyval :=
  PDict [("type", PStr "point"); ("class", PStr class);
         ("x", PInt x); ("y", PInt y)].

(** The body of the loop of [FileNameListContainer.parseFromFile]. *)
Definition filenamelist_fileitem (line : string) : pyval :=
  let line := Str.strip line in
  PDict [("filename", PStr line); ("type", PStr "image");
         ("annotations", PList [])].

Fixpoint filenamelist_loop (lines : list string) (annotations : list pyval)
  : list pyval :=
  match lines with
  | [] => annotations
  | line :: rest =>
      filenamelist_loop rest (annotations ++ [filenamelist_fileitem line])%list
  end.

(** The body of the loop of [FeretContainer.parseFromFile]; the
    subscripts and the conversions are evaluated in source order. *)
Definition feret_fileitem (line : string) : result pyval :=
  let s := Str.split line in
  rbind (getitem s 0) (fun s0 =>
  let fileitem := [("filename", PStr (s0 ++ ".bmp")); ("type", PStr "image")] in
  rbind (rbind (getitem s 1) Str.int) (fun x1 =>
  rbind (rbind (getitem s 2) Str.int) (fun y1 =>
  rbind (rbind (getitem s 3) Str.int) (fun x2 =>
  rbind (rbind (getitem s 4) Str.int) (fun y2 =>
  rbind (rbind (getitem s 5) Str.int) (fun x3 =>
  rbind (rbind (getitem s 6) Str.int) (fun y3 =>
  Ok (PDict (dict_set fileitem "annotations"
               (PList [point "left_eye" x1 y1;
                       point "right_eye" x2 y2;
                       point "mouth" x3 y3])))))))))).

Fixpoint feret_loop (lines : list string) (annotations : list pyval)
  : result (list pyval) :=
  match lines with
  | [] => Ok annotations
  | line :: rest =>
      rbind (feret_fileitem line)
            (fun fileitem => feret_loop rest (annotations ++ [fileitem])%list)
  end.

Section Containers.

Variable L : libraries.

Definition AnnotationContainer_parseFromFile (fname : option string) : M pyval :=
  raise (NotImplementedException
           ("You need to implement parseFromFile() in your subclass " ++
            "if you use the default implementation of " ++
            "AnnotationContainer.load()")).

Definition AnnotationContainer_serializeToFile
    (fname : option string) (annotations : pyval) : M unit :=
  raise (NotImplementedException
           ("You need to implement serializeToFile() in your subclass " ++
            "if you use the default implementation of " ++
            "AnnotationContainer.save()")).

Definition PickleContainer_parseFromFile (fname : option string) : M pyval :=
  f <- open fname ModeRB ;; codec_load (pickle L) f.

Definition PickleContainer_serializeToFile
    (fname : option string) (annotations : pyval) : M unit :=
  f <- open fname ModeWB ;; codec_dump (pickle L) annotations f.

Definition JsonContainer_parseFromFile (fname : option string) : M pyval :=
  f <- open fname ModeR ;; codec_load (of_pure (json L)) f.

Definition JsonContainer_serializeToFile
    (fname : option string) (annotations : pyval) : M unit :=
  f <- open fname ModeW ;; codec_dump (of_pure (json L)) annotations f.

Definition YamlContainer_parseFromFile (fname : option string) : M pyval :=
  f <- open fname ModeR ;; codec_load (yaml L) f.

Definition YamlContainer_serializeToFile
    (fname : option string) (annotations : pyval) : M unit :=
  f <- open fname ModeW ;; codec_dump (yaml L) annotations f.

(** [os.path.dirname(None)] raises [TypeError]. *)
Definition FileNameListContainer_parseFromFile (filename : option string)
  : M pyval :=
  match filename with
  | None =>
      raise (TypeError "expected str, bytes or os.PathLike object, not NoneType")
  | Some path =>
      set_basedir_ (Posixpath.dirname path) ;;;
      f <- open filename ModeR ;;
      text <- read f ;;
      ret (PList (filenamelist_loop (Str.readlines text) []))
  end.

Definition FileNameListContainer_serializeToFile
    (filename : option string) (annotations : pyval) : M unit :=
  raise_expr
    (call_NotImplemented "FileNameListContainer.save() is not implemented yet.").

Definition FeretContainer_parseFromFile (filename : option string) : M pyval :=
  f <- open filename ModeR ;;
  text <- read f ;;
  annotations <- lift (feret_loop (Str.readlines text) []) ;;
  ret (PList annotations).

Definition FeretContainer_serializeToFile
    (filename : option string) (annotations : pyval) : M unit :=
  raise_expr
    (call_NotImplemented "FeretContainer.serializeToFile() is not implemented yet.").

(** Method resolution: the class of [self] decides. *)
Definition parseFromFile (filename : option string) : M pyval :=
  fun s =>
    match cls (self s) with
    | AnnotationContainer => AnnotationContainer_parseFromFile filename s
    | PickleContainer => PickleContainer_parseFromFile filename s
    | JsonContainer => JsonContainer_parseFromFile filename s
    | YamlContainer => YamlContainer_parseFromFile filename s
    | FileNameListContainer => FileNameListContainer_parseFromFile filename s
    | FeretContainer => FeretContainer_parseFromFile filename s
    end.

Definition serializeToFile (filename : option string) (annotations : pyval)
  : M unit :=
  fun s =>
    match cls (self s) with
    | AnnotationContainer => AnnotationContainer_serializeToFile filename annotations s
    | PickleContainer => PickleContainer_serializeToFile filename annotations s
    | JsonContainer => JsonContainer_serializeToFile filename annotations s
    | YamlContainer => YamlContainer_serializeToFile filename annotations s
    | FileNameListContainer => FileNameListContainer_serializeToFile filename annotations s
    | FeretContainer => FeretContainer_serializeToFile filename annotations s
    end.

(** [load(filename)] *)
Definition load (filename : option string) : M pyval :=
  if py_not filename
  then raise (InvalidArgumentException "filename cannot be empty")
  else
    set_filename_ filename ;;;
    emit EvClock ;;;
    ann <- parseFromFile filename ;;
    emit EvClock ;;;
    emit (EvLogInfo (match filename with Some p => p | None => EmptyString end)) ;;;
    ret ann.

(** [save(annotations, filename)]; the default [filename] is [""]. *)
Definition save (annotations : pyval) (name : option string) : M unit :=
  fun s =>
    let name := if py_not name then filename (self s) else name in
    (serializeToFile name annotations ;;;
     set_filename_ name) s.

End Containers.

(** [_fullpath(filename)] *)
Definition _fullpath (c : container) (name : string) : string :=
  match filename c with
  | Some bound =>
      let basedir := Posixpath.dirname bound in
      Posixpath.join basedir name
  | None => name
  end.

(* ================================================================== *)
(** * The factory *)
(* ================================================================== *)

(** A registered container: anything that can be called with positional
    and keyword arguments, and returns an object or raises. *)
Definition callable : Type :=
  list pyval -> list (string * pyval) -> result container.

(** The classes of this module take no argument: with any, the call
    raises [TypeError] (message abridged). *)
Definition class (k : kind) : callable :=
  fun args kwargs =>
    match args, kwargs with
    | [], [] => Ok (new k)
    | _, _ => Raise (TypeError "__init__() takes 1 positional argument")
    end.

(** What a registration holds: a dotted name or the callable itself. *)
Inductive item : Type :=
| ItemStr (name : string)
| ItemCallable (c : callable).

Record AnnotationContainerFactory : Type := mkFactory {
  containers_ : list (string * callable)
}.

Section Factory.

(** [sloth.core.utils.import_callable] is not in the sources at hand:
    it maps a dotted name to a callable, or raises. *)
Variable import_callable : string -> result callable.

Definition resolve (it : item) : result callable :=
  match it with
  | ItemStr name => import_callable name
  | ItemCallable c => Ok c
  end.

Fixpoint init_loop (containers : list (string * item))
    (acc : list (string * callable)) : result (list (string * callable)) :=
  match containers with
  | [] => Ok acc
  | (pattern, it) :: rest =>
      rbind (resolve it)
            (fun c => init_loop rest (acc ++ [(pattern, c)])%list)
  end.

(** [AnnotationContainerFactory(containers)] *)
Definition init (containers : list (string * item))
  : result AnnotationContainerFactory :=
  rbind (init_loop containers []) (fun l => Ok (mkFactory l)).

(** What [__init__] leaves in [containers_]: the registrations in their
    order, each name resolved. *)
Inductive resolved : list (string * item) -> list (string * callable) -> Prop :=
| resolved_nil : resolved [] []
| resolved_cons p it c regs cs :
    resolve it = Ok c ->
    resolved regs cs ->
    resolved ((p, it) :: regs) ((p, c) :: cs).

End Factory.

Definition patterns (fac : AnnotationContainerFactory) : list string :=
  map fst (containers_ fac).

Fixpoint create_loop (cs : list (string * callable)) (filename : string)
    (args : list pyval) (kwargs : list (string * pyval)) : result container :=
  match cs with
  | [] => Raise (ImproperlyConfigured
                   ("No container registered for filename " ++ filename))
  | (pattern, container) :: rest =>
      if Fnmatch.fnmatch filename pattern
      then container args kwargs
      else create_loop rest filename args kwargs
  end.

(** [create(filename, *args, **kwargs)] *)
Definition create (fac : AnnotationContainerFactory) (filename : string)
    (args : list pyval) (kwargs : list (string * pyval)) : result container :=
  create_loop (containers_ fac) filename args kwargs.

(* ================================================================== *)
(** * Concrete libraries and registrations, for running the model *)
(* ================================================================== *)

(** A codec that stores a string as it is and refuses anything else. *)
Definition plain_codec : pure_codec :=
  mkPureCodec (fun text => Ok (PStr text))
              (fun v => match v with
                        | PStr s => Ok s
                        | _ => Raise (TypeError "not serializable")
                        end).

Definition plain_libraries : libraries :=
  mkLibraries (of_pure plain_codec) plain_codec (of_pure plain_codec).

(** A codec whose [loads] behaves as a pickle that names callables can:
    it leaves a file behind and returns a value read off the world (here
    the number of effects so far). *)
Definition running_codec : codec :=
  mkCodec (fun text w =>
             (mkWorld (("left_behind", text) :: files w) (readonly w) (trace w),
              Ok (PInt (Z.of_nat (List.length (trace w))))))
          (fun v => Raise (TypeError "not serializable")).

Definition running_libraries : libraries :=
  mkLibraries running_codec plain_codec running_codec.

(** A resolver that knows the classes of this module by name. *)
Definition builtin_import (name : string) : result callable :=
  if String.eqb name "sloth.annotations.container.JsonContainer"
  then Ok (class JsonContainer)
  else if String.eqb name "sloth.annotations.container.FeretContainer"
  then Ok (class FeretContainer)
  else Raise (ImproperlyConfigured ("Error importing " ++ name)).

Definition demo_registrations : list (string * item) :=
  [ ("*.json", ItemCallable (class JsonContainer));
    ("*.yaml", ItemCallable (class YamlContainer));
    ("*.txt", ItemStr "sloth.annotations.container.FeretContainer");
    ("*", ItemCallable (class PickleContainer)) ].


(** A small world: a Feret label file, a list of filenames, and one
    path that cannot be written. *)
Definition demo_world : world :=
  mkWorld [("labels/faces.txt", "s0001 10 20 30 20 20 40");
           ("labels/list.txt", "a.jpg" ++ Str.nl ++ "b.jpg" ++ Str.nl);
           ("notes.json", "hello")]
          ["/etc/passwd"]
          [].

(** A container of class [k] already bound to a label file. *)
Definition bound_to (k : kind) (path : string) : container :=
  mkContainer k (Some path) [] None.

(** The world after one more event. *)
Definition after (w : world) (e : event) : world :=
  mkWorld (files w) (readonly w) (trace w ++ [e])%list.

(** The state in which [load] invokes the parse primitive: [filename_]
    is already rebound and the clock has been read once. *)
Definition at_parse (fn : string) (s : state) : state :=
  mkState (mkContainer (cls (self s)) (Some fn) (annotations_ (self s))
                       (basedir_ (self s)))
          (mkWorld (files (env s)) (readonly (env s))
                   (trace (env s) ++ [EvClock])%list).

(** Methods that leave [filename_] alone. *)
Definition keeps_filename_ {A} (m : M A) : Prop :=
  forall s, filename_ (self (fst (m s))) = filename_ (self s).

(** The filename-list records as the specification words them: one
    record for each line that is not empty once trimmed. *)
Definition spec_filenamelist_records (text : string) : list pyval :=
  map (fun name => PDict [("filename", PStr name); ("type", PStr "image");
                          ("annotations", PList [])])
      (filter (fun name => negb (Str.is_empty name))
              (map Str.strip (Str.readlines text))).

(** A line of a Feret file is malformed when it has fewer than seven
    columns, or when one of the columns 1 to 6 is not an integer
    literal. *)
Definition feret_malformed (line : string) : bool :=
  let s := Str.split line in
  (List.length s <? 7)%nat
  || existsb (fun i => match nth_error s i with
                       | Some column => negb (is_ok (Str.int column))
                       | None => true
                       end)
             [1; 2; 3; 4; 5; 6]%nat.

(** Characters that can occur in an integer literal or around it. *)
Definition numeric_char (c : ascii) : bool :=
  Str.is_digit c || Ascii.eqb c "_"%char || Ascii.eqb c "+"%char
  || Ascii.eqb c "-"%char || Str.is_int_space c.

Fixpoint contains (s : string) (P : ascii -> bool) : bool :=
  match s with
  | EmptyString => false
  | String c s' => P c || contains s' P
  end.

(** Files used to exercise the parsers. *)
Definition blank_line_text : string :=
  "a.jpg" ++ Str.nl ++ Str.nl ++ "b.jpg" ++ Str.nl.

Definition blank_line_world : world :=
  mkWorld [("list.txt", blank_line_text)] [] [].

Definition broken_feret_text : string :=
  "s0001 10 20 30 20 20 40" ++ Str.nl ++
  "s0002 10 20 30 20 20" ++ Str.nl ++
  "s0003 10 2x 30 20 20 40" ++ Str.nl.

Definition broken_feret_world : world :=
  mkWorld [("faces.txt", broken_feret_text)] [] [].

Definition is_sep (c : ascii) : bool := Ascii.eqb c Posixpath.sep.

(* ================================================================== *)
(** * The rest of the container: media loading *)
(* ================================================================== *)

(** [loadImage(filename)]: the path is resolved, then handed to
    [okapy.loadImage], which is outside the repository. *)
Definition loadImage {A} (okapy_loadImage : string -> result A)
    (c : container) (name : string) : result A :=
  let fullpath := _fullpath c name in
  okapy_loadImage fullpath.

(** [loadFrame(filename, frame_number)]: the path is resolved and
    nothing else is done; the method returns [None]. *)
Definition loadFrame (c : container) (name : string) (frame_number : Z) : pyval :=
  let fullpath := _fullpath c name in
  PNone.

(** The library and the file modes of the three containers that
    delegate to a serialisation library: [(lib, read mode, write mode)]. *)
Definition delegate (L : libraries) (k : kind) : option (codec * mode * mode) :=
  match k with
  | PickleContainer => Some (pickle L, ModeRB, ModeWB)
  | JsonContainer => Some (of_pure (json L), ModeR, ModeW)
  | YamlContainer => Some (yaml L, ModeR, ModeW)
  | _ => None
  end.

(** The world once [path] has been opened in the writing mode [m] (and
    so emptied), and once [text] has been written to it. *)
Definition truncated (w : world) (path : string) (m : mode) : world :=
  mkWorld ((path, EmptyString) :: files w) (readonly w)
          (trace w ++ [EvOpen path m])%list.

Definition written_in (w : world) (path text : string) (m : mode) : world :=
  mkWorld ((path, text) :: (path, EmptyString) :: files w) (readonly w)
          (trace w ++ [EvOpen path m])%list.

(** The path [save] writes to: the argument, or the bound path when the
    argument is empty or missing. *)
Definition save_target (c : container) (name : option string) : option string :=
  if py_not name then filename c else name.

(** The classes whose parse primitive runs no code of a library that
    executes what the file names: all but the pickle and the YAML
    containers. *)
Definition parses_plainly (k : kind) : bool :=
  match k with
  | PickleContainer | YamlContainer => false
  | _ => true
  end.

(** Methods that change nothing. *)
Definition quiet {A} (m : M A) : Prop := forall s, fst (m s) = s.

(** An [open] of [path] for reading. *)
Definition is_read_of (path : string) (e : event) : bool :=
  match e with
  | EvOpen p m => String.eqb p path && negb (is_write m)
  | _ => false
  end.

(** Pattern characters with a meaning for [fnmatch]. *)
Definition is_meta (c : ascii) : bool :=
  Ascii.eqb c "*"%char || Ascii.eqb c "?"%char || Ascii.eqb c "["%char.

Definition white (s : string) : bool := negb (contains s (fun c => negb (Str.is_space c))).

(* ================================================================== *)
(** * [setup.py] *)
(* ================================================================== *)

(** [s[i:]] for [0 <= i]. *)
Definition slice_from (s : string) (i : Z) : string :=
  substring (Z.to_nat i) (String.length s - Z.to_nat i) s.

(** [posixpath.split]:
<<
    i = p.rfind(sep) + 1
    head, tail = p[:i], p[i:]
    if head and head != sep*len(head):
        head = head.rstrip(sep)
    return head, tail
>> *)
Definition path_split (p : string) : string * string :=
  let i := (Str.rfind p Posixpath.sep + 1)%Z in
  let head := Str.slice_to p i in
  let tail := slice_from p i in
  let head :=
    if negb (Str.is_empty head)
       && negb (String.eqb head (Str.repeat Posixpath.sep (String.length head)))
    then Str.rstrip_char head Posixpath.sep
    else head in
  (head, tail).

(** [fullsplit(path, result)], with the recursion counted: [None] is
    a recursion that did not end within [fuel] calls.
<<
    head, tail = os.path.split(path)
    if head == '':   return [tail] + result
    if head == path: return result
    return fullsplit(head, [tail] + result)
>> *)
Fixpoint fullsplit_fuel (fuel : nat) (path : string) (result : list string)
  : option (list string) :=
  match fuel with
  | O => None
  | S fuel' =>
      let '(head, tail) := path_split path in
      if String.eqb head "" then Some ([tail] ++ result)%list
      else if String.eqb head path then Some result
      else fullsplit_fuel fuel' head ([tail] ++ result)%list
  end.

(** [fullsplit(path, result=None)]; one call more than the path has
    characters is always enough (theorem [fullsplit_terminates]). *)
Definition fullsplit (path : string) (result : option (list string))
  : option (list string) :=
  let result := match result with None => [] | Some r => r end in
  fullsplit_fuel (S (String.length path)) path result.

(** [sep.join(l)] *)
Fixpoint str_join (sep : string) (l : list string) : string :=
  match l with
  | [] => EmptyString
  | [x] => x
  | x :: rest => x ++ sep ++ str_join sep rest
  end.

(** ['.'.join(fullsplit(dirpath))], the name of the package found in
    [dirpath]. *)
Definition package_name (dirpath : string) : option string :=
  option_map (str_join ".") (fullsplit dirpath None).

(** [del l[i]] for [i] in range. *)
Fixpoint remove_at {A} (i : nat) (l : list A) : list A :=
  match l with
  | [] => []
  | x :: l' =>
      match i with
      | O => l'
      | S i' => x :: remove_at i' l'
      end
  end.

Definition hidden (dirname : string) : bool := Str.startswith dirname "."%char.

(** The loop
<<
    for i, dirname in enumerate(dirnames):
        if dirname.startswith('.'): del dirnames[i]
>>
    The iterator of the list holds a position, which is also the count
    [i] of [enumerate]; it stops when the position reaches the current
    length of the list, which the body shortens. *)
Fixpoint prune_loop (fuel : nat) (i : nat) (dirnames : list string) : list string :=
  match fuel with
  | O => dirnames
  | S fuel' =>
      match nth_error dirnames i with
      | None => dirnames
      | Some dirname =>
          if hidden dirname
          then prune_loop fuel' (S i) (remove_at i dirnames)
          else prune_loop fuel' (S i) dirnames
      end
  end.

(** The position grows at every step and the list never does: the loop
    ends within as many steps as the list has entries. *)
Definition prune_hidden (dirnames : list string) : list string :=
  prune_loop (List.length dirnames) 0 dirnames.

(** What the loop leaves of the entries not yet visited: a hidden entry
    is removed and the entry after it is passed over. *)
Fixpoint passed_over (dirnames : list string) : list string :=
  match dirnames with
  | [] => []
  | d :: rest =>
      if hidden d
      then match rest with
           | [] => []
           | d' :: rest' => d' :: passed_over rest'
           end
      else d :: passed_over rest
  end.

(** No two hidden entries next to each other. *)
Fixpoint hidden_apart (dirnames : list string) : bool :=
  match dirnames with
  | [] => true
  | d :: rest =>
      match rest with
      | d' :: _ => negb (hidden d && hidden d') && hidden_apart rest
      | [] => true
      end
  end.

(** A path component: not empty, no separator. *)
Definition component (s : string) : bool :=
  negb (Str.is_empty s) && negb (contains s is_sep).

(** Registrations given as constructors, none by name. *)
Definition direct (cs : list (string * callable)) : list (string * item) :=
  map (fun r => (fst r, ItemCallable (snd r))) cs.
(* ================================================================== *)
(** * The library functions on examples *)
(* ================================================================== *)

Example split_columns :
  Str.split ("s0001 10  20 30 20 20 40" ++ Str.nl)
  = ["s0001"; "10"; "20"; "30"; "20"; "20"; "40"].
Proof. reflexivity. Qed.

Example split_blank : Str.split ("   " ++ Str.nl) = [].
Proof. reflexivity. Qed.

Example strip_line : Str.strip ("  a b.jpg " ++ Str.nl) = "a b.jpg".
Proof. reflexivity. Qed.

Example strip_blank : Str.strip ("  " ++ Str.nl) = "".
Proof. reflexivity. Qed.

Example readlines_keeps_blank_lines :
  Str.readlines ("a" ++ Str.nl ++ Str.nl ++ "b") = ["a" ++ Str.nl; Str.nl; "b"].
Proof. reflexivity. Qed.

Example int_literals :
  Str.int "42" = Ok 42%Z /\ Str.int "-07" = Ok (-7)%Z /\ Str.int "+3" = Ok 3%Z /\
  Str.int "1_000" = Ok 1000%Z /\ Str.int " 5 " = Ok 5%Z /\
  Str.int "" = Raise (ValueError "") /\ Str.int "-" = Raise (ValueError "-") /\
  Str.int "1__0" = Raise (ValueError "1__0") /\ Str.int "_1" = Raise (ValueError "_1") /\
  Str.int "12.5" = Raise (ValueError "12.5") /\ Str.int "0x1f" = Raise (ValueError "0x1f") /\
  Str.int "5 5" = Raise (ValueError "5 5") /\ Str.int "+ 5" = Raise (ValueError "+ 5") /\
  Str.int (String (ascii_of_nat 28) "5") = Raise (ValueError (String (ascii_of_nat 28) "5")).
Proof. repeat split; reflexivity. Qed.

Example dirname_examples :
  Posixpath.dirname "/a/b/c.json" = "/a/b" /\ Posixpath.dirname "c.json" = "" /\
  Posixpath.dirname "/c.json" = "/" /\ Posixpath.dirname "//c.json" = "//" /\
  Posixpath.dirname "a//c.json" = "a" /\ Posixpath.dirname "a/b/" = "a/b" /\
  Posixpath.dirname "" = "".
Proof. repeat split; reflexivity. Qed.

Example join_examples :
  Posixpath.join "/a/b" "c.jpg" = "/a/b/c.jpg" /\ Posixpath.join "/a/b/" "c.jpg" = "/a/b/c.jpg" /\
  Posixpath.join "" "c.jpg" = "c.jpg" /\ Posixpath.join "/a/b" "/c.jpg" = "/c.jpg" /\
  Posixpath.join "/" "c.jpg" = "/c.jpg" /\ Posixpath.join "a" "" = "a/".
Proof. repeat split; reflexivity. Qed.

Example fnmatch_examples :
  Fnmatch.fnmatch "a.json" "*.json" = true /\ Fnmatch.fnmatch "a.json" "*" = true /\
  Fnmatch.fnmatch "a.yaml" "*.json" = false /\ Fnmatch.fnmatch "A.JSON" "*.json" = false /\
  Fnmatch.fnmatch "dir/a.json" "*.json" = true /\ Fnmatch.fnmatch "" "*" = true /\
  Fnmatch.fnmatch "x1.txt" "x[0-9].t?t" = true /\ Fnmatch.fnmatch "xa.txt" "x[0-9].txt" = false /\
  Fnmatch.fnmatch "xa.txt" "x[!0-9].txt" = true /\ Fnmatch.fnmatch "x[.txt" "x[.txt" = true /\
  Fnmatch.fnmatch "x].txt" "x[]].txt" = true /\ Fnmatch.fnmatch "x-.txt" "x[a-].txt" = true /\
  Fnmatch.fnmatch "xb.txt" "x[z-a].txt" = false /\ Fnmatch.fnmatch "xb.txt" "x[a-c-e].txt" = true /\
  Fnmatch.fnmatch "xd.txt" "x[a-c-e].txt" = false /\ Fnmatch.fnmatch "x-.txt" "x[a-c-e].txt" = true.
Proof. repeat split; reflexivity. Qed.

Example fnmatch_bracket_corners :
  Fnmatch.fnmatch "x!.txt" "x[!].txt" = false /\ Fnmatch.fnmatch "xa.txt" "x[!]a].txt" = false /\
  Fnmatch.fnmatch "xb.txt" "x[!]a].txt" = true /\ Fnmatch.fnmatch "x-" "x[--a]" = true /\
  Fnmatch.fnmatch "x0" "x[--a]" = true /\ Fnmatch.fnmatch "xb" "x[--a]" = false /\
  Fnmatch.fnmatch "xq" "x[!z-a]" = true /\ Fnmatch.fnmatch "x^" "x[^a]" = true /\
  Fnmatch.fnmatch "xb" "x[^a]" = false /\ Fnmatch.fnmatch "x\" "x[\]" = true /\
  Fnmatch.fnmatch "xb" "x[a-b-]" = true /\ Fnmatch.fnmatch "x-" "x[-a]" = true /\
  Fnmatch.fnmatch "xc" "x[a-bc-d]" = true /\ Fnmatch.fnmatch "x&" "x[&&]" = true.
Proof. repeat split; reflexivity. Qed.

(** The length of the pattern is fuel enough for [tokens]. *)
Lemma until_close_shorter p : forall stuff rest,
  Fnmatch.until_close p = Some (stuff, rest) -> (List.length rest < List.length p)%nat.
Proof.
  induction p as [|c p IH]; intros stuff rest H; simpl in H; [discriminate|].
  destruct (Ascii.eqb c "]").
  - injection H as _ <-. simpl. lia.
  - destruct (Fnmatch.until_close p) as [[st r]|] eqn:E; [|discriminate].
    injection H as _ <-. specialize (IH _ _ eq_refl). simpl. lia.
Qed.

Lemma bracket_shorter p stuff rest :
  Fnmatch.bracket p = Some (stuff, rest) -> (List.length rest <= List.length p)%nat.
Proof.
  unfold Fnmatch.bracket. intros H.
  destruct p as [|c p]; simpl in H; [discriminate|].
  destruct (Ascii.eqb c "!").
  - destruct p as [|d p]; simpl in H; [discriminate|].
    destruct (Ascii.eqb d "]").
    + destruct (Fnmatch.until_close p) as [[st r]|] eqn:E; [|discriminate].
      injection H as _ <-. apply until_close_shorter in E. simpl. lia.
    + destruct (Fnmatch.until_close (d :: p)) as [[st r]|] eqn:E; [|discriminate].
      injection H as _ <-. apply until_close_shorter in E. simpl in *. lia.
  - destruct (Ascii.eqb c "]").
    + destruct (Fnmatch.until_close p) as [[st r]|] eqn:E; [|discriminate].
      injection H as _ <-. apply until_close_shorter in E. simpl. lia.
    + destruct (Fnmatch.until_close (c :: p)) as [[st r]|] eqn:E; [|discriminate].
      injection H as _ <-. apply until_close_shorter in E. simpl in *. lia.
Qed.

Lemma tokens_fuel n : forall p m,
  (List.length p <= n)%nat -> (List.length p <= m)%nat ->
  Fnmatch.tokens n p = Fnmatch.tokens m p.
Proof.
  induction n as [|n IH]; intros p m Hn Hm.
  - destruct p; [|simpl in Hn; lia]. now destruct m.
  - destruct p as [|c p]; [now destruct m|].
    destruct m as [|m]; [simpl in Hm; lia|].
    simpl in *.
    destruct (Ascii.eqb c "*"); [f_equal; apply IH; lia|].
    destruct (Ascii.eqb c "?"); [f_equal; apply IH; lia|].
    destruct (Ascii.eqb c "[").
    + destruct (Fnmatch.bracket p) as [[stuff rest]|] eqn:E.
      * apply bracket_shorter in E. f_equal; apply IH; lia.
      * f_equal; apply IH; lia.
    + f_equal; apply IH; lia.
Qed.

(* ================================================================== *)
(** * The factory: first match wins, no match is an error *)
(* ================================================================== *)

Lemma create_loop_first pre p c post fn args kwargs :
  (forall q d, In (q, d) pre -> Fnmatch.fnmatch fn q = false) ->
  Fnmatch.fnmatch fn p = true ->
  create_loop (pre ++ (p, c) :: post)%list fn args kwargs = c args kwargs.
Proof.
  induction pre as [|[q d] pre IH]; intros Hpre Hp; simpl.
  - now rewrite Hp.
  - rewrite (Hpre q d) by now left.
    apply IH; auto. intros q' d' Hin. apply (Hpre q' d'). now right.
Qed.

Lemma create_loop_none cs fn args kwargs :
  (forall q d, In (q, d) cs -> Fnmatch.fnmatch fn q = false) ->
  create_loop cs fn args kwargs =
  Raise (ImproperlyConfigured ("No container registered for filename " ++ fn)).
Proof.
  induction cs as [|[q d] cs IH]; intros H; simpl; [reflexivity|].
  rewrite (H q d) by now left.
  apply IH. intros q' d' Hin. apply (H q' d'). now right.
Qed.

(** [create] as a search: the first registration whose pattern matches
    decides. *)
Lemma create_find fac fn args kwargs :
  create fac fn args kwargs =
  match find (fun r => Fnmatch.fnmatch fn (fst r)) (containers_ fac) with
  | Some (_, c) => c args kwargs
  | None => Raise (ImproperlyConfigured ("No container registered for filename " ++ fn))
  end.
Proof.
  unfold create. induction (containers_ fac) as [|[p c] cs IH]; simpl; [reflexivity|].
  destruct (Fnmatch.fnmatch fn p); [reflexivity | exact IH].
Qed.

Section FactoryFacts.

Variable import_callable : string -> result callable.

Lemma init_loop_resolved regs : forall acc l,
  init_loop import_callable regs acc = Ok l ->
  exists cs, l = (acc ++ cs)%list /\ resolved import_callable regs cs.
Proof.
  induction regs as [|[p it] regs IH]; intros acc l H; simpl in H.
  - injection H as <-. exists []. split; [now rewrite app_nil_r | constructor].
  - destruct (resolve import_callable it) as [c|e] eqn:Hr; simpl in H; [|discriminate].
    destruct (IH _ _ H) as (cs & -> & Hcs).
    exists ((p, c) :: cs). split.
    + now rewrite <- app_assoc.
    + now constructor.
Qed.

Lemma init_resolved regs fac :
  init import_callable regs = Ok fac -> resolved import_callable regs (containers_ fac).
Proof.
  unfold init. destruct (init_loop import_callable regs []) as [l|e] eqn:H; simpl; [|discriminate].
  intros [= <-]. simpl.
  destruct (init_loop_resolved _ _ _ H) as (cs & -> & Hcs). exact Hcs.
Qed.

Lemma resolved_patterns regs cs :
  resolved import_callable regs cs -> map fst cs = map fst regs.
Proof. induction 1; simpl; congruence. Qed.

Lemma resolved_split regs cs :
  resolved import_callable regs cs ->
  forall pre p it post, regs = (pre ++ (p, it) :: post)%list ->
  exists pre' c post',
    cs = (pre' ++ (p, c) :: post')%list /\
    resolve import_callable it = Ok c /\
    map fst pre' = map fst pre.
Proof.
  induction 1 as [|p0 it0 c0 regs cs Hr Hres IH]; intros pre p it post E.
  - destruct pre; discriminate.
  - destruct pre as [|[q j] pre]; simpl in E.
    + injection E as -> -> ->. exists [], c0, cs. auto.
    + injection E as -> -> ->.
      destruct (IH _ _ _ _ eq_refl) as (pre' & c & post' & -> & Hc & Hm).
      exists ((q, c0) :: pre'), c, post'. simpl. rewrite Hm. auto.
Qed.

(** [patterns()] lists the registered patterns in registration order. *)
Lemma init_patterns regs fac :
  init import_callable regs = Ok fac -> patterns fac = map fst regs.
Proof. intros H. apply resolved_patterns, init_resolved, H. Qed.

(** C1.  For a factory built from the registration list [regs], and a
    filename [fn]: if [(p, it)] is the first registration, in
    registration order, whose pattern matches [fn], then [create] returns
    exactly what the container registered there returns when called with
    the construction arguments, whatever the later registrations are
    (also when their patterns match [fn] too). *)
Theorem create_first_match regs fac pre p it post fn args kwargs :
  init import_callable regs = Ok fac ->
  regs = (pre ++ (p, it) :: post)%list ->
  (forall q, In q (map fst pre) -> Fnmatch.fnmatch fn q = false) ->
  Fnmatch.fnmatch fn p = true ->
  exists c,
    resolve import_callable it = Ok c /\
    create fac fn args kwargs = c args kwargs.
Proof.
  intros Hinit Hregs Hpre Hp.
  destruct (resolved_split _ _ (init_resolved _ _ Hinit) _ _ _ _ Hregs)
    as (pre' & c & post' & Hcs & Hc & Hm).
  exists c. split; [exact Hc|].
  unfold create. rewrite Hcs. apply create_loop_first; [|exact Hp].
  intros q d Hin. apply Hpre. rewrite <- Hm.
  change q with (fst (q, d)). now apply in_map.
Qed.

End FactoryFacts.

(** C1 at work: ["faces.txt"] matches the third pattern ["*.txt"] and
    the later ["*"], not the two first ones; the container registered
    under ["*.txt"] (by name) is built. *)
Lemma create_first_match_witness :
  exists c,
    resolve builtin_import (ItemStr "sloth.annotations.container.FeretContainer") = Ok c /\
    create (mkFactory
              [("*.json", class JsonContainer); ("*.yaml", class YamlContainer);
               ("*.txt", class FeretContainer); ("*", class PickleContainer)])
           "faces.txt" [] [] = c [] [].
Proof.
  apply (create_first_match builtin_import demo_registrations _
           [("*.json", ItemCallable (class JsonContainer));
            ("*.yaml", ItemCallable (class YamlContainer))]
           "*.txt" (ItemStr "sloth.annotations.container.FeretContainer")
           [("*", ItemCallable (class PickleContainer))]).
  - reflexivity.
  - reflexivity.
  - simpl. intros q [<-|[<-|[]]]; reflexivity.
  - reflexivity.
Defined.

(** C2.  When no registered pattern matches the filename, [create]
    raises [ImproperlyConfigured] with the message naming the filename;
    in particular it returns no object. *)
Theorem create_no_match fac fn args kwargs :
  (forall q, In q (patterns fac) -> Fnmatch.fnmatch fn q = false) ->
  create fac fn args kwargs =
  Raise (ImproperlyConfigured ("No container registered for filename " ++ fn)).
Proof.
  intros H. unfold create. apply create_loop_none.
  intros q d Hin. apply H. unfold patterns.
  change q with (fst (q, d)). now apply in_map.
Qed.

Lemma create_no_match_witness :
  create (mkFactory [("*.json", class JsonContainer); ("*.yaml", class YamlContainer)])
         "faces.txt" [] [] =
  Raise (ImproperlyConfigured "No container registered for filename faces.txt").
Proof.
  apply (create_no_match
           (mkFactory [("*.json", class JsonContainer); ("*.yaml", class YamlContainer)])
           "faces.txt" [] []).
  simpl. intros q [<-|[<-|[]]]; reflexivity.
Defined.

(* ================================================================== *)
(** * The load/save protocol *)
(* ================================================================== *)

Ltac unfold_methods :=
  unfold load, save, parseFromFile, serializeToFile,
    AnnotationContainer_parseFromFile, AnnotationContainer_serializeToFile,
    PickleContainer_parseFromFile, PickleContainer_serializeToFile,
    JsonContainer_parseFromFile, JsonContainer_serializeToFile,
    YamlContainer_parseFromFile, YamlContainer_serializeToFile,
    FileNameListContainer_parseFromFile, FileNameListContainer_serializeToFile,
    FeretContainer_parseFromFile, FeretContainer_serializeToFile,
    codec_load, codec_dump, lib_loads, open, read, write, raise_expr,
    call_NotImplemented,
    bind, ret, raise, lift, emit, set_filename_, set_basedir_, put_file in *.

Lemma py_not_true fn : py_not fn = true <-> fn = None \/ fn = Some "".
Proof.
  split.
  - destruct fn as [[|c s]|]; simpl; intros H; auto; discriminate.
  - intros [->| ->]; reflexivity.
Qed.

Lemma py_not_false fn : py_not (Some fn) = false <-> fn <> "".
Proof.
  destruct fn; simpl; split; intros H; congruence.
Qed.


Lemma keeps_ret {A} (a : A) : keeps_filename_ (ret a).
Proof. intros s; reflexivity. Qed.

Lemma keeps_raise {A} e : keeps_filename_ (@raise A e).
Proof. intros s; reflexivity. Qed.

Lemma keeps_lift {A} (r : result A) : keeps_filename_ (lift r).
Proof. intros s; reflexivity. Qed.

Lemma keeps_emit e : keeps_filename_ (emit e).
Proof. intros s; reflexivity. Qed.

Lemma keeps_put_file p t : keeps_filename_ (put_file p t).
Proof. intros s; reflexivity. Qed.

Lemma keeps_set_basedir_ d : keeps_filename_ (set_basedir_ d).
Proof. intros s; reflexivity. Qed.

Lemma keeps_bind {A B} (m : M A) (k : A -> M B) :
  keeps_filename_ m -> (forall a, keeps_filename_ (k a)) -> keeps_filename_ (bind m k).
Proof.
  intros Hm Hk s. unfold bind. specialize (Hm s).
  destruct (m s) as [s' [a|e]]; simpl in *; [|exact Hm].
  now rewrite Hk.
Qed.

Lemma keeps_lib_loads c text : keeps_filename_ (lib_loads c text).
Proof.
  intros s. unfold lib_loads. now destruct (loads c text (env s)).
Qed.

Lemma keeps_read f : keeps_filename_ (read f).
Proof. destruct f; [apply keeps_ret | apply keeps_raise]. Qed.

Lemma keeps_write f t : keeps_filename_ (write f t).
Proof. destruct f; [apply keeps_raise | apply keeps_put_file]. Qed.

Lemma keeps_open fn m : keeps_filename_ (open fn m).
Proof.
  destruct fn as [p|]; [|apply keeps_raise].
  unfold open. apply keeps_bind; [apply keeps_emit|]. intros _ s.
  destruct (is_write m).
  - destruct (Str.is_empty p || mem p (readonly (env s))); reflexivity.
  - destruct (lookup (files (env s)) p); [|reflexivity].
    destruct (Str.is_empty p); reflexivity.
Qed.

Create HintDb keeps.
#[local] Hint Resolve keeps_ret keeps_raise keeps_lift keeps_emit keeps_put_file
  keeps_set_basedir_ keeps_lib_loads keeps_read keeps_write keeps_open : keeps.

Ltac keeps := repeat (first [ progress eauto with keeps
                            | apply keeps_bind; [|intros ?] ]).

(** The parse primitives never touch [filename_]. *)
Lemma parseFromFile_filename_ L fn s :
  filename_ (self (fst (parseFromFile L fn s))) = filename_ (self s).
Proof.
  unfold parseFromFile. destruct (cls (self s)).
  - apply (@keeps_raise pyval).
  - unfold PickleContainer_parseFromFile, codec_load. revert s. fold (@keeps_filename_ pyval). keeps.
  - unfold JsonContainer_parseFromFile, codec_load. revert s. fold (@keeps_filename_ pyval). keeps.
  - unfold YamlContainer_parseFromFile, codec_load. revert s. fold (@keeps_filename_ pyval). keeps.
  - unfold FileNameListContainer_parseFromFile. destruct fn; [|reflexivity].
    revert s. fold (@keeps_filename_ pyval). keeps.
  - unfold FeretContainer_parseFromFile. revert s. fold (@keeps_filename_ pyval). keeps.
Qed.


Lemma load_unfold L fn s :
  fn <> "" ->
  load L (Some fn) s =
  match parseFromFile L (Some fn) (at_parse fn s) with
  | (s2, Ok ann) =>
      (mkState (self s2)
               (mkWorld (files (env s2)) (readonly (env s2))
                        ((trace (env s2) ++ [EvClock]) ++ [EvLogInfo fn])%list),
       Ok ann)
  | (s2, Raise e) => (s2, Raise e)
  end.
Proof.
  intros H. apply py_not_false in H.
  unfold load. rewrite H.
  unfold bind, set_filename_, emit, ret. simpl.
  fold (at_parse fn s).
  destruct (parseFromFile L (Some fn) (at_parse fn s)) as [s2 [ann|e]]; reflexivity.
Qed.

(** C3.  [load] with a missing ([None]) or empty filename raises
    [InvalidArgumentException] and leaves the object and the world as
    they were: [filename_] is not rebound, and the trace has no new event
    (no file was opened, the parse primitive did not run). *)
Theorem load_empty_filename L fn s :
  fn = None \/ fn = Some "" ->
  load L fn s = (s, Raise (InvalidArgumentException "filename cannot be empty")).
Proof.
  intros H. apply py_not_true in H. unfold load. now rewrite H.
Qed.

(** C10.  [load] with a non-empty filename invokes the parse primitive
    in a state where [filename_] is already the new filename.  When the
    primitive raises, [load] ends in the state the primitive left, with
    the same exception, and [filename()] is the new filename: the previous
    binding is not restored. *)
Theorem load_rebinds_before_parse L fn s :
  fn <> "" ->
  filename (self (at_parse fn s)) = Some fn /\
  filename (self (fst (load L (Some fn) s))) = Some fn /\
  forall s2 e,
    parseFromFile L (Some fn) (at_parse fn s) = (s2, Raise e) ->
    load L (Some fn) s = (s2, Raise e) /\ filename (self s2) = Some fn.
Proof.
  intros H. split; [reflexivity|].
  pose proof (parseFromFile_filename_ L (Some fn) (at_parse fn s)) as Hf.
  rewrite (load_unfold L fn s H).
  destruct (parseFromFile L (Some fn) (at_parse fn s)) as [s2 [ann|e]]; simpl in *.
  - split; [exact Hf|]. intros ? ? [=].
  - split; [exact Hf|]. intros s3 e' [= <- <-]. split; [reflexivity | exact Hf].
Qed.

Lemma load_empty_filename_witness :
  load plain_libraries (Some "")
       (mkState (bound_to JsonContainer "notes.json") demo_world) =
  (mkState (bound_to JsonContainer "notes.json") demo_world,
   Raise (InvalidArgumentException "filename cannot be empty")).
Proof.
  apply (load_empty_filename plain_libraries (Some "")
           (mkState (bound_to JsonContainer "notes.json") demo_world)).
  right. reflexivity.
Defined.

(** C10 at work: a container bound to ["notes.json"] fails to load
    ["missing.json"] and stays bound to ["missing.json"]. *)
Lemma load_rebinds_before_parse_witness :
  load plain_libraries (Some "missing.json")
       (mkState (bound_to JsonContainer "notes.json") demo_world)
  = (mkState (bound_to JsonContainer "missing.json")
             (mkWorld (files demo_world) (readonly demo_world)
                      [EvClock; EvOpen "missing.json" ModeR]),
     Raise (IOError "missing.json"))
  /\ filename (self (mkState (bound_to JsonContainer "missing.json")
                       (mkWorld (files demo_world) (readonly demo_world)
                                [EvClock; EvOpen "missing.json" ModeR])))
     = Some "missing.json".
Proof.
  apply (proj2 (proj2 (load_rebinds_before_parse plain_libraries "missing.json"
                         (mkState (bound_to JsonContainer "notes.json") demo_world)
                         ltac:(discriminate)))).
  reflexivity.
Defined.

(** C7 (as the code behaves).  [save] on a [FileNameListContainer] or a
    [FeretContainer] always fails, for every annotations value and every
    filename, and changes nothing; but the failure is the [TypeError] of
    calling the constant [NotImplemented], not a not-implemented
    exception such as the base class raises. *)
Theorem save_unsupported_raises_TypeError L annotations fn bound anns bd w :
  save L annotations fn (mkState (mkContainer FileNameListContainer bound anns bd) w)
  = (mkState (mkContainer FileNameListContainer bound anns bd) w,
     Raise (TypeError "'NotImplementedType' object is not callable"))
  /\
  save L annotations fn (mkState (mkContainer FeretContainer bound anns bd) w)
  = (mkState (mkContainer FeretContainer bound anns bd) w,
     Raise (TypeError "'NotImplementedType' object is not callable"))
  /\
  (forall msg,
      snd (save L annotations fn (mkState (mkContainer FeretContainer bound anns bd) w))
      <> Raise (NotImplementedException msg))
  /\
  exists msg,
    snd (save L annotations fn (mkState (mkContainer AnnotationContainer bound anns bd) w))
    = Raise (NotImplementedException msg).
Proof.
  repeat split; try discriminate.
  eexists. reflexivity.
Qed.

(* ================================================================== *)
(** * Path resolution *)
(* ================================================================== *)

Lemma join_absolute a b : Posixpath.isabs b = true -> Posixpath.join a b = b.
Proof. unfold Posixpath.isabs, Posixpath.join. now intros ->. Qed.

Lemma join_relative a b :
  Posixpath.isabs b = false ->
  Posixpath.join a b =
  if Str.is_empty a || Str.endswith a Posixpath.sep then a ++ b
  else a ++ "/" ++ b.
Proof. unfold Posixpath.isabs, Posixpath.join. now intros ->. Qed.

Lemma join_empty_dir b : Posixpath.join "" b = b.
Proof. unfold Posixpath.join. now destruct (Str.startswith b Posixpath.sep). Qed.

(** C4.  [_fullpath(p)] is [p] when no label file is bound; when the
    label file [bound] is bound and [p] is relative, it is
    [os.path.join(os.path.dirname(bound), p)], that is the directory
    followed by [p], with a separator in between unless the directory is
    empty or already ends with one; and an absolute [p] comes back
    unchanged whatever is bound. *)
Theorem fullpath_spec c p :
  (filename c = None -> _fullpath c p = p) /\
  (forall bound,
      filename c = Some bound -> Posixpath.isabs p = false ->
      let d := Posixpath.dirname bound in
      _fullpath c p = Posixpath.join d p /\
      _fullpath c p =
        if Str.is_empty d || Str.endswith d Posixpath.sep then d ++ p
        else d ++ "/" ++ p) /\
  (Posixpath.isabs p = true -> _fullpath c p = p).
Proof.
  unfold _fullpath. repeat split.
  - now intros ->.
  - now rewrite H.
  - rewrite H. now apply join_relative.
  - intros H. destruct (filename c); [now apply join_absolute | reflexivity].
Qed.

Lemma fullpath_spec_witness :
  _fullpath (new JsonContainer) "img/a.jpg" = "img/a.jpg" /\
  _fullpath (bound_to JsonContainer "/data/labels/faces.json") "img/a.jpg"
    = "/data/labels/img/a.jpg" /\
  _fullpath (bound_to JsonContainer "faces.json") "img/a.jpg" = "img/a.jpg" /\
  _fullpath (bound_to JsonContainer "/data/labels/faces.json") "/abs/a.jpg"
    = "/abs/a.jpg".
Proof.
  split; [|split; [|split]].
  - apply (proj1 (fullpath_spec (new JsonContainer) "img/a.jpg")). reflexivity.
  - apply (proj2 (proj1 (proj2 (fullpath_spec
             (bound_to JsonContainer "/data/labels/faces.json") "img/a.jpg"))
             "/data/labels/faces.json" eq_refl eq_refl)).
  - apply (proj2 (proj1 (proj2 (fullpath_spec
             (bound_to JsonContainer "faces.json") "img/a.jpg"))
             "faces.json" eq_refl eq_refl)).
  - apply (proj2 (proj2 (fullpath_spec
             (bound_to JsonContainer "/data/labels/faces.json") "/abs/a.jpg"))).
    reflexivity.
Defined.

(* ================================================================== *)
(** * The directory of a label file *)
(* ================================================================== *)

Lemma rfind_absent s :
  contains s is_sep = false -> Str.rfind s Posixpath.sep = (-1)%Z.
Proof.
  induction s as [|c s IH]; simpl; [reflexivity|].
  intros H. apply orb_false_iff in H as [Hc Hs].
  rewrite (IH Hs). simpl. unfold is_sep in Hc. now rewrite Hc.
Qed.

Lemma rfind_last d name :
  contains name is_sep = false ->
  Str.rfind (d ++ String Posixpath.sep name) Posixpath.sep
  = Z.of_nat (String.length d).
Proof.
  intros H. induction d as [|c d IH].
  - simpl. rewrite (rfind_absent _ H). reflexivity.
  - cbn [append Str.rfind String.length]. rewrite IH.
    destruct (0 <=? Z.of_nat (String.length d))%Z eqn:E; [lia|].
    apply Z.leb_gt in E. lia.
Qed.

Lemma slice_to_prefix d rest :
  Str.slice_to (d ++ String Posixpath.sep rest) (Z.of_nat (String.length d) + 1)
  = d ++ String Posixpath.sep EmptyString.
Proof.
  unfold Str.slice_to.
  replace (Z.to_nat (Z.of_nat (String.length d) + 1)) with (S (String.length d)) by lia.
  induction d as [|c d IH]; simpl.
  - now destruct rest.
  - now rewrite IH.
Qed.

Lemma not_all_sep d : forall n,
  d <> "" -> Str.endswith d Posixpath.sep = false ->
  String.eqb (d ++ String Posixpath.sep EmptyString) (Str.repeat Posixpath.sep n) = false.
Proof.
  induction d as [|c d IH]; intros n Hne He; [congruence|].
  destruct n as [|n]; [reflexivity|].
  cbn [append Str.repeat String.eqb].
  destruct (Ascii.eqb c Posixpath.sep) eqn:Hc; [|reflexivity].
  destruct d as [|c' d'].
  - simpl in He. congruence.
  - apply IH; [discriminate | exact He].
Qed.

Lemma rstrip_by_cons sp c s :
  Str.rstrip_by sp (String c s)
  = if Str.is_empty (Str.rstrip_by sp s) && sp c then EmptyString
    else String c (Str.rstrip_by sp s).
Proof. reflexivity. Qed.

Lemma rstrip_sep d :
  d <> "" -> Str.endswith d Posixpath.sep = false ->
  Str.rstrip_char (d ++ String Posixpath.sep EmptyString) Posixpath.sep = d.
Proof.
  unfold Str.rstrip_char.
  induction d as [|c d IH]; intros Hne He; [congruence|].
  destruct d as [|c' d'].
  - simpl in *. rewrite He. reflexivity.
  - change (String c (String c' d') ++ String Posixpath.sep "")
      with (String c (String c' d' ++ String Posixpath.sep "")).
    rewrite rstrip_by_cons, IH; [reflexivity | discriminate | exact He].
Qed.

(** The directory of [d/name] is [d], for a non-empty [d] that does not
    end with a separator and a [name] without separator. *)
Lemma dirname_of_file d name :
  d <> "" -> Str.endswith d Posixpath.sep = false ->
  contains name is_sep = false ->
  Posixpath.dirname (d ++ String Posixpath.sep name) = d.
Proof.
  intros Hne He Hn. unfold Posixpath.dirname.
  rewrite (rfind_last d name Hn), slice_to_prefix.
  rewrite (not_all_sep d _ Hne He).
  destruct d as [|c d]; [congruence|]. cbn [append Str.is_empty negb andb].
  apply (rstrip_sep (String c d) Hne He).
Qed.

(** A label file named without any directory has the empty directory. *)
Lemma dirname_bare name :
  contains name is_sep = false -> Posixpath.dirname name = "".
Proof.
  intros H. unfold Posixpath.dirname. rewrite (rfind_absent _ H).
  unfold Str.slice_to. simpl. now destruct name.
Qed.

(** Resolution against the label file [d/name]: a relative path [p]
    becomes [d/p]. *)
Lemma fullpath_of_file c d name p :
  filename c = Some (d ++ String Posixpath.sep name) ->
  d <> "" -> Str.endswith d Posixpath.sep = false ->
  contains name is_sep = false ->
  Posixpath.isabs p = false ->
  _fullpath c p = d ++ "/" ++ p.
Proof.
  intros Hf Hne He Hn Hp. unfold _fullpath. rewrite Hf.
  rewrite (dirname_of_file d name Hne He Hn), (join_relative _ _ Hp), He.
  destruct d; [congruence | reflexivity].
Qed.

(** Resolution against a label file of the current directory: the path
    is unchanged. *)
Lemma fullpath_of_bare_file c name p :
  filename c = Some name -> contains name is_sep = false ->
  _fullpath c p = p.
Proof.
  intros Hf Hn. unfold _fullpath. rewrite Hf, (dirname_bare _ Hn).
  apply join_empty_dir.
Qed.

(* ================================================================== *)
(** * The line-oriented parsers *)
(* ================================================================== *)


Lemma open_existing path text c w :
  lookup (files w) path = Some text -> path <> "" ->
  open (Some path) ModeR (mkState c w)
  = (mkState c (after w (EvOpen path ModeR)), Ok (FileR text)).
Proof.
  intros Hl Hp. unfold open, bind, emit, ret, raise. simpl. rewrite Hl.
  destruct path; [congruence | reflexivity].
Qed.

Lemma open_missing path c w :
  lookup (files w) path = None ->
  open (Some path) ModeR (mkState c w)
  = (mkState c (after w (EvOpen path ModeR)), Raise (IOError path)).
Proof.
  intros Hl. unfold open, bind, emit, ret, raise. simpl. now rewrite Hl.
Qed.

(** The Feret parser on an existing file: it opens the file and runs the
    loop on its lines; the object is unchanged. *)
Lemma feret_parse L path text c w :
  cls c = FeretContainer ->
  lookup (files w) path = Some text -> path <> "" ->
  parseFromFile L (Some path) (mkState c w)
  = (mkState c (after w (EvOpen path ModeR)),
     match feret_loop (Str.readlines text) [] with
     | Ok annotations => Ok (PList annotations)
     | Raise e => Raise e
     end).
Proof.
  intros Hc Hl Hp. destruct c as [k f a b]. simpl in Hc. subst k.
  unfold parseFromFile. cbn [self cls].
  unfold FeretContainer_parseFromFile.
  unfold bind at 1. rewrite (open_existing _ _ _ _ Hl Hp).
  unfold bind, read, ret, lift.
  destruct (feret_loop (Str.readlines text) []); reflexivity.
Qed.

(** C5.  On a file whose only line is ["s0001 10 20 30 20 20 40"] (with
    or without a final newline) the Feret parser returns a list of exactly
    one record: filename ["s0001.bmp"], type ["image"], and the three
    points (10,20) [left_eye], (30,20) [right_eye], (20,40) [mouth], in
    this order. *)
Theorem feret_example L path text c w :
  cls c = FeretContainer ->
  lookup (files w) path = Some text -> path <> "" ->
  text = "s0001 10 20 30 20 20 40" \/
  text = "s0001 10 20 30 20 20 40" ++ Str.nl ->
  parseFromFile L (Some path) (mkState c w)
  = (mkState c (after w (EvOpen path ModeR)),
     Ok (PList
           [PDict [("filename", PStr "s0001.bmp");
                   ("type", PStr "image");
                   ("annotations",
                    PList [PDict [("type", PStr "point"); ("class", PStr "left_eye");
                                  ("x", PInt 10); ("y", PInt 20)];
                           PDict [("type", PStr "point"); ("class", PStr "right_eye");
                                  ("x", PInt 30); ("y", PInt 20)];
                           PDict [("type", PStr "point"); ("class", PStr "mouth");
                                  ("x", PInt 20); ("y", PInt 40)]])]])).
Proof.
  intros Hc Hl Hp Ht. rewrite (feret_parse L path text c w Hc Hl Hp).
  destruct Ht as [-> | ->]; reflexivity.
Qed.

Lemma feret_example_witness :
  fst (parseFromFile plain_libraries (Some "labels/faces.txt")
         (mkState (new FeretContainer) demo_world))
  = mkState (new FeretContainer) (after demo_world (EvOpen "labels/faces.txt" ModeR))
  /\
  exists record,
    snd (parseFromFile plain_libraries (Some "labels/faces.txt")
           (mkState (new FeretContainer) demo_world)) = Ok (PList [record]) /\
    field record "filename" = Some (PStr "s0001.bmp") /\
    field record "type" = Some (PStr "image") /\
    field record "annotations"
      = Some (PList [point "left_eye" 10 20; point "right_eye" 30 20;
                     point "mouth" 20 40]).
Proof.
  rewrite (feret_example plain_libraries "labels/faces.txt"
             "s0001 10 20 30 20 20 40" (new FeretContainer) demo_world
             eq_refl eq_refl ltac:(discriminate) (or_introl eq_refl)).
  split; [reflexivity|]. eexists. split; [reflexivity|].
  repeat split; reflexivity.
Defined.

Lemma filenamelist_loop_map lines : forall acc,
  filenamelist_loop lines acc = (acc ++ map filenamelist_fileitem lines)%list.
Proof.
  induction lines as [|line lines IH]; intros acc; simpl.
  - now rewrite app_nil_r.
  - rewrite IH, <- app_assoc. reflexivity.
Qed.

(** The filename-list parser on an existing file: it records the
    directory of the file in [basedir_], opens the file, and builds one
    record per line. *)
Lemma filenamelist_parse L path text c w :
  cls c = FileNameListContainer ->
  lookup (files w) path = Some text -> path <> "" ->
  parseFromFile L (Some path) (mkState c w)
  = (mkState (mkContainer (cls c) (filename_ c) (annotations_ c)
                          (Some (Posixpath.dirname path)))
             (after w (EvOpen path ModeR)),
     Ok (PList (map filenamelist_fileitem (Str.readlines text)))).
Proof.
  intros Hc Hl Hp. destruct c as [k f a b]. simpl in Hc. subst k.
  unfold parseFromFile. cbn [self cls].
  unfold FileNameListContainer_parseFromFile.
  unfold bind at 1. unfold set_basedir_ at 1. cbn [self env cls filename_ annotations_].
  unfold bind at 1. rewrite (open_existing _ _ _ _ Hl Hp).
  unfold bind, read, ret. rewrite filenamelist_loop_map. reflexivity.
Qed.

Lemma filter_all_true {A} (f : A -> bool) l :
  (forall x, In x l -> f x = true) -> filter f l = l.
Proof.
  induction l as [|x l IH]; intros H; simpl; [reflexivity|].
  rewrite (H x) by now left. f_equal. apply IH. intros y Hy. apply H. now right.
Qed.

(** C6 (amended).  The filename-list parser returns exactly one record
    per line of the file, in file order, blank lines included; the record
    of a line has the trimmed line as filename (the empty string for a
    blank line), type ["image"] and no annotations.  When no line is
    blank, these are the records of the non-empty trimmed lines. *)
Theorem filenamelist_one_record_per_line L path text c w :
  cls c = FileNameListContainer ->
  lookup (files w) path = Some text -> path <> "" ->
  exists records,
    snd (parseFromFile L (Some path) (mkState c w)) = Ok (PList records) /\
    List.length records = List.length (Str.readlines text) /\
    (forall i line,
        nth_error (Str.readlines text) i = Some line ->
        nth_error records i
        = Some (PDict [("filename", PStr (Str.strip line)); ("type", PStr "image");
                       ("annotations", PList [])])) /\
    ((forall line, In line (Str.readlines text) -> Str.strip line <> "") ->
     records = spec_filenamelist_records text).
Proof.
  intros Hc Hl Hp. rewrite (filenamelist_parse L path text c w Hc Hl Hp). simpl.
  exists (map filenamelist_fileitem (Str.readlines text)).
  split; [reflexivity|]. split; [apply length_map|]. split.
  - intros i line Hi. rewrite nth_error_map, Hi. reflexivity.
  - intros Hne. unfold spec_filenamelist_records.
    rewrite filter_all_true.
    + rewrite map_map. reflexivity.
    + intros name Hin. apply in_map_iff in Hin as (line & <- & Hin).
      specialize (Hne line Hin). now destruct (Str.strip line).
Qed.

(** C6 at work: the two lines ["a.jpg"] and ["b.jpg"] give exactly two
    records, in this order. *)
Lemma filenamelist_one_record_per_line_witness :
  exists records,
    snd (parseFromFile plain_libraries (Some "labels/list.txt")
           (mkState (new FileNameListContainer) demo_world)) = Ok (PList records) /\
    List.length records = 2%nat /\
    (forall i line,
        nth_error ["a.jpg" ++ Str.nl; "b.jpg" ++ Str.nl] i = Some line ->
        nth_error records i
        = Some (PDict [("filename", PStr (Str.strip line)); ("type", PStr "image");
                       ("annotations", PList [])])) /\
    ((forall line, In line ["a.jpg" ++ Str.nl; "b.jpg" ++ Str.nl] ->
                   Str.strip line <> "") ->
     records = [PDict [("filename", PStr "a.jpg"); ("type", PStr "image");
                       ("annotations", PList [])];
                PDict [("filename", PStr "b.jpg"); ("type", PStr "image");
                       ("annotations", PList [])]]).
Proof.
  apply (filenamelist_one_record_per_line plain_libraries "labels/list.txt"
           ("a.jpg" ++ Str.nl ++ "b.jpg" ++ Str.nl)
           (new FileNameListContainer) demo_world eq_refl eq_refl).
  discriminate.
Defined.

(** C6 as worded fails on a blank line: the file with the lines
    ["a.jpg"], [""] and ["b.jpg"] gives three records, the second with an
    empty filename, where the non-empty trimmed lines are two. *)
Lemma filenamelist_blank_line_counterexample :
  snd (parseFromFile plain_libraries (Some "list.txt")
         (mkState (new FileNameListContainer) blank_line_world))
  <> Ok (PList (spec_filenamelist_records blank_line_text))
  /\ List.length (spec_filenamelist_records blank_line_text) = 2%nat
  /\ snd (parseFromFile plain_libraries (Some "list.txt")
            (mkState (new FileNameListContainer) blank_line_world))
     = Ok (PList [PDict [("filename", PStr "a.jpg"); ("type", PStr "image");
                         ("annotations", PList [])];
                  PDict [("filename", PStr ""); ("type", PStr "image");
                         ("annotations", PList [])];
                  PDict [("filename", PStr "b.jpg"); ("type", PStr "image");
                         ("annotations", PList [])]]).
Proof.
  split; [|split].
  - vm_compute. discriminate.
  - reflexivity.
  - reflexivity.
Qed.

(** ** Feret files: a malformed line fails the whole parse *)

Lemma int_raise s e : Str.int s = Raise e -> e = ValueError s.
Proof.
  unfold Str.int.
  match goal with |- context [match ?r with Some _ => _ | None => _ end] => destruct r end;
    [discriminate | now intros [= <-]].
Qed.

Ltac case_ints :=
  repeat match goal with
         | |- context [Str.int ?x] =>
             let r := fresh "r" in
             let E := fresh "E" in
             destruct (Str.int x) as [r|r] eqn:E; cbn -[Str.int]
         end.

(** [feret_malformed] is exactly the condition under which the loop body
    raises. *)
Lemma feret_fileitem_malformed line :
  feret_malformed line = true <-> is_ok (feret_fileitem line) = false.
Proof.
  unfold feret_malformed, feret_fileitem.
  destruct (Str.split line) as [|s0 [|s1 [|s2 [|s3 [|s4 [|s5 [|s6 rest]]]]]]];
    cbn -[Str.int]; case_ints; split; intros H; try reflexivity; try discriminate.
Qed.

Lemma feret_fileitem_error line e :
  feret_fileitem line = Raise e ->
  e = IndexError "list index out of range" \/ exists literal, e = ValueError literal.
Proof.
  unfold feret_fileitem.
  destruct (Str.split line) as [|s0 [|s1 [|s2 [|s3 [|s4 [|s5 [|s6 rest]]]]]]];
    cbn -[Str.int]; case_ints; intros H; try discriminate;
    injection H as <-; auto;
    match goal with
    | E : Str.int _ = Raise _ |- _ => right; eexists; apply (int_raise _ _ E)
    end.
Qed.

Lemma feret_loop_malformed lines : forall acc,
  existsb feret_malformed lines = true ->
  exists e pre line post,
    lines = (pre ++ line :: post)%list /\
    existsb feret_malformed pre = false /\
    feret_fileitem line = Raise e /\
    feret_loop lines acc = Raise e.
Proof.
  induction lines as [|l lines IH]; intros acc H; simpl in H; [discriminate|].
  destruct (feret_malformed l) eqn:Hm; simpl in H.
  - apply feret_fileitem_malformed in Hm.
    destruct (feret_fileitem l) as [v|e] eqn:Hl; [discriminate|].
    exists e, [], l, lines. simpl. rewrite Hl. auto.
  - assert (Hok : is_ok (feret_fileitem l) = true).
    { destruct (is_ok (feret_fileitem l)) eqn:Hi; [reflexivity|].
      apply feret_fileitem_malformed in Hi. congruence. }
    destruct (feret_fileitem l) as [v|e0] eqn:Hl; [|discriminate].
    destruct (IH (acc ++ [v])%list H) as (e & pre & line & post & -> & Hpre & Hline & Hloop).
    exists e, (l :: pre), line, post. simpl. rewrite Hm, Hl. simpl. auto.
Qed.

(** Conversely, a file without malformed line parses, one record per
    line. *)
Lemma feret_loop_wellformed lines : forall acc,
  existsb feret_malformed lines = false ->
  exists records,
    feret_loop lines acc = Ok (acc ++ records)%list /\
    List.length records = List.length lines.
Proof.
  induction lines as [|l lines IH]; intros acc H; simpl in H.
  - exists []. simpl. now rewrite app_nil_r.
  - apply orb_false_iff in H as [Hm H].
    assert (Hok : is_ok (feret_fileitem l) = true).
    { destruct (is_ok (feret_fileitem l)) eqn:Hi; [reflexivity|].
      apply feret_fileitem_malformed in Hi. congruence. }
    destruct (feret_fileitem l) as [v|e0] eqn:Hl; [|discriminate].
    destruct (IH (acc ++ [v])%list H) as (records & Hloop & Hlen).
    exists (v :: records). simpl. rewrite Hl. simpl. rewrite Hloop, <- app_assoc.
    simpl. auto.
Qed.

(** A column with a character that is neither a digit, an underscore, a
    sign nor white space is not an integer literal. *)
Lemma digits_non_numeric s : forall acc prev,
  contains s (fun c => negb (numeric_char c)) = true ->
  Str.digits acc prev s = None.
Proof.
  induction s as [|c s IH]; intros acc prev H; simpl in H; [discriminate|].
  simpl. unfold numeric_char in H.
  destruct (Str.is_digit c); simpl in H; [now apply IH|].
  destruct (Ascii.eqb c "_"); simpl in H; [|reflexivity].
  destruct prev; [now apply IH | reflexivity].
Qed.

Lemma contains_lstrip s :
  contains (Str.lstrip_by Str.is_int_space s) (fun c => negb (numeric_char c))
  = contains s (fun c => negb (numeric_char c)).
Proof.
  induction s as [|c s IH]; simpl; [reflexivity|].
  destruct (Str.is_int_space c) eqn:Hs; [|reflexivity].
  rewrite IH. unfold numeric_char. rewrite Hs.
  now rewrite !orb_true_r.
Qed.

Lemma contains_rstrip s :
  contains (Str.rstrip_by Str.is_int_space s) (fun c => negb (numeric_char c))
  = contains s (fun c => negb (numeric_char c)).
Proof.
  induction s as [|c s IH]; simpl; [reflexivity|].
  destruct (Str.rstrip_by Str.is_int_space s) as [|d r] eqn:Hr; simpl in *.
  - destruct (Str.is_int_space c) eqn:Hs; simpl.
    + rewrite <- IH. unfold numeric_char. rewrite Hs. now rewrite !orb_true_r.
    + now rewrite <- IH.
  - now rewrite <- IH.
Qed.

Lemma int_non_numeric s :
  contains s (fun c => negb (numeric_char c)) = true ->
  Str.int s = Raise (ValueError s).
Proof.
  intros H. unfold Str.int.
  rewrite <- contains_lstrip, <- contains_rstrip in H.
  destruct (Str.rstrip_by Str.is_int_space (Str.lstrip_by Str.is_int_space s))
    as [|c t] eqn:Ht; [discriminate|].
  assert (Hd : Str.digits 0 false (String c t) = None)
    by now apply digits_non_numeric.
  simpl in H. apply orb_true_iff in H as [H|H].
  - unfold numeric_char in H.
    destruct (Ascii.eqb c "-"); [rewrite ?orb_true_r in H; discriminate|].
    destruct (Ascii.eqb c "+"); [rewrite ?orb_true_r in H; discriminate|].
    now rewrite Hd.
  - rewrite (digits_non_numeric t 0 false H).
    destruct (Ascii.eqb c "-"); [reflexivity|].
    destruct (Ascii.eqb c "+"); [reflexivity|].
    now rewrite Hd.
Qed.

(** C9.  When some line of a Feret file is malformed, the parser
    returns no list: it raises the exception of the first malformed line
    ([IndexError] for a missing column, [ValueError] for a column that is
    not an integer), after opening the file and without touching the
    object, and [load] lets this exception through as it is. *)
Theorem feret_malformed_line_fails L path text c w :
  cls c = FeretContainer ->
  lookup (files w) path = Some text -> path <> "" ->
  existsb feret_malformed (Str.readlines text) = true ->
  exists e pre line post,
    Str.readlines text = (pre ++ line :: post)%list /\
    existsb feret_malformed pre = false /\
    feret_fileitem line = Raise e /\
    (e = IndexError "list index out of range" \/ exists literal, e = ValueError literal) /\
    parseFromFile L (Some path) (mkState c w)
    = (mkState c (after w (EvOpen path ModeR)), Raise e) /\
    snd (load L (Some path) (mkState c w)) = Raise e.
Proof.
  intros Hc Hl Hp Hm.
  destruct (feret_loop_malformed _ [] Hm) as (e & pre & line & post & Hsplit & Hpre & Hline & Hloop).
  exists e, pre, line, post.
  repeat split; auto.
  - now apply feret_fileitem_error with line.
  - rewrite (feret_parse L path text c w Hc Hl Hp), Hloop. reflexivity.
  - rewrite (load_unfold L path _ Hp). unfold at_parse. cbn [self env].
    rewrite (feret_parse L path text); auto.
    now rewrite Hloop.
Qed.

(** C9 at work: the second line has six columns only, the third a
    coordinate that is not a number; the parse raises for the second. *)
Lemma feret_malformed_line_fails_witness :
  exists e pre line post,
    Str.readlines broken_feret_text = (pre ++ line :: post)%list /\
    existsb feret_malformed pre = false /\
    feret_fileitem line = Raise e /\
    (e = IndexError "list index out of range" \/ exists literal, e = ValueError literal) /\
    parseFromFile plain_libraries (Some "faces.txt")
                  (mkState (new FeretContainer) broken_feret_world)
    = (mkState (new FeretContainer)
               (after broken_feret_world (EvOpen "faces.txt" ModeR)), Raise e) /\
    snd (load plain_libraries (Some "faces.txt")
              (mkState (new FeretContainer) broken_feret_world))
    = Raise e.
Proof.
  apply (feret_malformed_line_fails plain_libraries "faces.txt" broken_feret_text
           (new FeretContainer) broken_feret_world eq_refl eq_refl).
  - discriminate.
  - reflexivity.
Defined.

Example broken_feret_first_error :
  snd (parseFromFile plain_libraries (Some "faces.txt")
         (mkState (new FeretContainer) broken_feret_world))
  = Raise (IndexError "list index out of range").
Proof. reflexivity. Qed.

Lemma feret_short_line line :
  (List.length (Str.split line) < 7)%nat -> feret_malformed line = true.
Proof.
  intros H. unfold feret_malformed.
  apply Nat.ltb_lt in H. now rewrite H.
Qed.

Lemma feret_non_numeric_column line i column :
  In i [1; 2; 3; 4; 5; 6]%nat ->
  nth_error (Str.split line) i = Some column ->
  contains column (fun c => negb (numeric_char c)) = true ->
  feret_malformed line = true.
Proof.
  intros Hi Hn Hc. unfold feret_malformed.
  apply orb_true_iff. right. apply existsb_exists. exists i. split; [exact Hi|].
  rewrite Hn, (int_non_numeric _ Hc). reflexivity.
Qed.


(* ================================================================== *)
(** * [setup.py]: pruning the hidden directories *)
(* ================================================================== *)

Example prune_examples :
  prune_hidden [".git"; ".svn"; "a"] = [".svn"; "a"] /\
  prune_hidden ["a"; ".git"; "b"] = ["a"; "b"] /\
  prune_hidden [".a"; "b"; ".c"; ".d"; ".e"] = ["b"; ".d"] /\
  prune_hidden [".a"] = [] /\
  prune_hidden [".a"; ".b"; ".c"; ".d"] = [".b"; ".d"].
Proof. repeat split; reflexivity. Qed.

Lemma prune_loop_past fuel i l :
  (List.length l <= i)%nat -> prune_loop fuel i l = l.
Proof.
  intros H. destruct fuel; simpl; [reflexivity|].
  apply nth_error_None in H. now rewrite H.
Qed.

Lemma remove_at_middle {A} (pre : list A) x rest :
  remove_at (List.length pre) (pre ++ x :: rest)%list = (pre ++ rest)%list.
Proof. induction pre as [|y pre IH]; simpl; [reflexivity | now rewrite IH]. Qed.

Lemma nth_error_middle {A} (pre suf : list A) :
  nth_error (pre ++ suf)%list (List.length pre) = nth_error suf 0.
Proof. induction pre as [|y pre IH]; simpl; [reflexivity | exact IH]. Qed.

(** The loop, started at the position [length pre] with [suf] still to
    visit, leaves [pre] as it is and [passed_over suf] after it. *)
Lemma prune_loop_passed_over fuel : forall pre suf,
  (List.length suf <= fuel)%nat ->
  prune_loop fuel (List.length pre) (pre ++ suf)%list = (pre ++ passed_over suf)%list.
Proof.
  induction fuel as [|fuel IH]; intros pre suf H.
  - destruct suf; [reflexivity | simpl in H; lia].
  - simpl. rewrite nth_error_middle.
    destruct suf as [|d rest]; [reflexivity|]. cbn [nth_error passed_over].
    simpl in H. destruct (hidden d).
    + rewrite remove_at_middle. destruct rest as [|d' rest'].
      * apply prune_loop_past. rewrite length_app. simpl. lia.
      * replace (pre ++ d' :: rest')%list with ((pre ++ [d']) ++ rest')%list
          by now rewrite <- app_assoc.
        replace (S (List.length pre)) with (List.length (pre ++ [d'])%list)
          by (rewrite length_app; simpl; lia).
        rewrite IH by (simpl in H; lia). now rewrite <- app_assoc.
    + replace (pre ++ d :: rest)%list with ((pre ++ [d]) ++ rest)%list
        by now rewrite <- app_assoc.
      replace (S (List.length pre)) with (List.length (pre ++ [d])%list)
        by (rewrite length_app; simpl; lia).
      rewrite IH by lia. now rewrite <- app_assoc.
Qed.

Lemma prune_hidden_passed_over l : prune_hidden l = passed_over l.
Proof. apply (prune_loop_passed_over (List.length l) [] l). lia. Qed.

Lemma passed_over_visible_bounded n : forall l,
  (List.length l <= n)%nat ->
  filter (fun d => negb (hidden d)) (passed_over l)
  = filter (fun d => negb (hidden d)) l.
Proof.
  induction n as [|n IH]; intros l H.
  - destruct l; [reflexivity | simpl in H; lia].
  - destruct l as [|d rest]; [reflexivity|]. simpl in H. cbn [passed_over].
    destruct (hidden d) eqn:Hd.
    + cbn [filter]. rewrite Hd. cbn [negb].
      destruct rest as [|d' rest']; [reflexivity|].
      cbn [filter]. rewrite (IH rest') by (simpl in H; lia). reflexivity.
    + cbn [filter]. rewrite Hd. cbn [negb]. now rewrite (IH rest) by lia.
Qed.

(** X1.  The loop that drops the entries starting with a dot never
    drops another entry: the visible entries of the list are all still
    there afterwards, in their order. *)
Theorem prune_keeps_visible dirnames :
  filter (fun d => negb (hidden d)) (prune_hidden dirnames)
  = filter (fun d => negb (hidden d)) dirnames.
Proof.
  rewrite prune_hidden_passed_over.
  apply (passed_over_visible_bounded (List.length dirnames)). lia.
Qed.

Lemma passed_over_apart_bounded n : forall l,
  (List.length l <= n)%nat -> hidden_apart l = true ->
  passed_over l = filter (fun d => negb (hidden d)) l.
Proof.
  induction n as [|n IH]; intros l H Ha.
  - destruct l; [reflexivity | simpl in H; lia].
  - destruct l as [|d rest]; [reflexivity|]. simpl in H. cbn [passed_over filter].
    destruct rest as [|d' rest'].
    + destruct (hidden d); reflexivity.
    + cbn [hidden_apart] in Ha. apply andb_true_iff in Ha as [Hn Ha].
      destruct (hidden d) eqn:Hd; cbn [negb].
      * destruct (hidden d') eqn:Hd'; [discriminate|].
        cbn [filter]. rewrite Hd'. cbn [negb]. f_equal.
        apply IH; [simpl in H; lia|].
        destruct rest' as [|d'' rest'']; [reflexivity|].
        cbn [hidden_apart] in Ha. now apply andb_true_iff in Ha as [_ Ha].
      * f_equal. apply IH; [simpl in *; lia | exact Ha].
Qed.

(** X2.  When no two entries starting with a dot stand next to each
    other, the loop removes exactly the entries starting with a dot. *)
Theorem prune_removes_hidden_when_apart dirnames :
  hidden_apart dirnames = true ->
  prune_hidden dirnames = filter (fun d => negb (hidden d)) dirnames.
Proof.
  intros H. rewrite prune_hidden_passed_over.
  now apply (passed_over_apart_bounded (List.length dirnames)).
Qed.

Lemma prune_removes_hidden_when_apart_witness :
  prune_hidden [".git"; "sloth"; ".hg"; "doc"] = ["sloth"; "doc"].
Proof.
  apply (prune_removes_hidden_when_apart [".git"; "sloth"; ".hg"; "doc"]).
  reflexivity.
Defined.

(** X3.  Deleting under the iterator makes it pass over the next entry:
    the entry that follows a removed one is kept without being looked at,
    also when it starts with a dot itself. *)
Theorem prune_passes_over_next d next rest :
  hidden d = true ->
  prune_hidden (d :: next :: rest) = next :: prune_hidden rest.
Proof.
  intros H. rewrite !prune_hidden_passed_over. cbn [passed_over]. now rewrite H.
Qed.

Lemma prune_passes_over_next_witness :
  prune_hidden [".git"; ".svn"; "sloth"] = [".svn"; "sloth"].
Proof.
  apply (prune_passes_over_next ".git" ".svn" ["sloth"]). reflexivity.
Defined.

(* ================================================================== *)
(** * [setup.py]: [fullsplit] *)
(* ================================================================== *)

Example fullsplit_examples :
  fullsplit "sloth/gui" None = Some ["sloth"; "gui"] /\
  fullsplit "/a/b" None = Some ["a"; "b"] /\
  fullsplit "a/b/" None = Some ["a"; "b"; ""] /\
  fullsplit "" None = Some [""] /\
  fullsplit "/" None = Some [] /\
  fullsplit "//a" None = Some ["a"] /\
  fullsplit "a//b" None = Some ["a"; "b"] /\
  fullsplit "./a" None = Some ["."; "a"] /\
  package_name "sloth/gui" = Some "sloth.gui".
Proof. repeat split; reflexivity. Qed.

Lemma append_assoc_s (a b c : string) : (a ++ b) ++ c = a ++ (b ++ c).
Proof. induction a as [|x a IH]; simpl; [reflexivity | now rewrite IH]. Qed.

Lemma append_nil_s (a : string) : a ++ "" = a.
Proof. induction a as [|x a IH]; simpl; [reflexivity | now rewrite IH]. Qed.

Lemma length_append_s (a b : string) :
  String.length (a ++ b) = (String.length a + String.length b)%nat.
Proof. induction a as [|x a IH]; simpl; [reflexivity | now rewrite IH]. Qed.

Lemma substring_whole s : substring 0 (String.length s) s = s.
Proof. induction s as [|c s IH]; simpl; [reflexivity | now rewrite IH]. Qed.

Lemma substring_is_prefix s : forall n, exists rest, s = substring 0 n s ++ rest.
Proof.
  induction s as [|c s IH]; intros n.
  - exists "". now destruct n.
  - destruct n as [|n]; simpl.
    + now exists (String c s).
    + destruct (IH n) as [rest Hr]. exists rest. now rewrite <- Hr.
Qed.

Lemma rstrip_by_is_prefix sp s : exists rest, s = Str.rstrip_by sp s ++ rest.
Proof.
  induction s as [|c s [rest IH]]; [now exists ""|].
  rewrite rstrip_by_cons.
  destruct (Str.is_empty (Str.rstrip_by sp s) && sp c).
  - now exists (String c s).
  - exists rest. simpl. now rewrite <- IH.
Qed.

(** The head that [os.path.split] returns is a prefix of the path. *)
Lemma path_split_head_prefix p : exists rest, p = fst (path_split p) ++ rest.
Proof.
  unfold path_split. cbn [fst].
  set (head := Str.slice_to p (Str.rfind p Posixpath.sep + 1)).
  destruct (substring_is_prefix p (Z.to_nat (Str.rfind p Posixpath.sep + 1)))
    as [rest Hr].
  fold (Str.slice_to p (Str.rfind p Posixpath.sep + 1)) in Hr. fold head in Hr.
  destruct (negb (Str.is_empty head)
            && negb (String.eqb head (Str.repeat Posixpath.sep (String.length head)))).
  - destruct (rstrip_by_is_prefix (fun d => Ascii.eqb d Posixpath.sep) head)
      as [rest' Hr'].
    exists (rest' ++ rest). unfold Str.rstrip_char.
    rewrite <- append_assoc_s, <- Hr'. exact Hr.
  - now exists rest.
Qed.

Lemma path_split_head_shorter p :
  fst (path_split p) <> p ->
  (String.length (fst (path_split p)) < String.length p)%nat.
Proof.
  intros Hne. destruct (path_split_head_prefix p) as [rest Hr].
  destruct rest as [|c rest].
  - rewrite append_nil_s in Hr. congruence.
  - rewrite Hr at 2. rewrite length_append_s. simpl. lia.
Qed.

Lemma fullsplit_fuel_enough n : forall path result,
  (String.length path < n)%nat ->
  exists parts, fullsplit_fuel n path result = Some parts.
Proof.
  induction n as [|n IH]; intros path result H; [lia|].
  cbn [fullsplit_fuel].
  pose proof (path_split_head_shorter path) as Hs.
  destruct (path_split path) as [head tail]. cbn [fst] in Hs.
  destruct (String.eqb head "") eqn:E1; [eauto|].
  destruct (String.eqb head path) eqn:E2; [eauto|].
  apply String.eqb_neq in E2. apply IH. specialize (Hs E2). lia.
Qed.

(** X4.  [fullsplit] returns on every path, with or without a start
    list: the recursion is on a strictly shorter head, and a head equal to
    the path (a path made of separators) ends it. *)
Theorem fullsplit_terminates path result :
  exists parts, fullsplit path result = Some parts.
Proof.
  unfold fullsplit. apply fullsplit_fuel_enough. lia.
Qed.

(** More calls than needed change nothing. *)
Lemma fullsplit_fuel_stable n : forall m path result parts,
  fullsplit_fuel n path result = Some parts ->
  (n <= m)%nat ->
  fullsplit_fuel m path result = Some parts.
Proof.
  induction n as [|n IH]; intros m path result parts H Hm; [discriminate|].
  destruct m as [|m]; [lia|]. cbn [fullsplit_fuel] in *.
  destruct (path_split path) as [head tail].
  destruct (String.eqb head ""); [exact H|].
  destruct (String.eqb head path); [exact H|].
  apply IH; [exact H | lia].
Qed.

Lemma slice_from_suffix d rest :
  slice_from (d ++ rest) (Z.of_nat (String.length d)) = rest.
Proof.
  unfold slice_from. rewrite Nat2Z.id, length_append_s.
  replace (String.length d + String.length rest - String.length d)%nat
    with (String.length rest) by lia.
  induction d as [|c d IH]; simpl; [apply substring_whole | exact IH].
Qed.

Lemma path_split_file d name :
  d <> "" -> Str.endswith d Posixpath.sep = false ->
  contains name is_sep = false ->
  path_split (d ++ String Posixpath.sep name) = (d, name).
Proof.
  intros Hne He Hn.
  pose proof (dirname_of_file d name Hne He Hn) as Hd.
  unfold Posixpath.dirname in Hd. unfold path_split. rewrite Hd. f_equal.
  rewrite (rfind_last d name Hn).
  replace (d ++ String Posixpath.sep name)
    with ((d ++ String Posixpath.sep "") ++ name)
    by (rewrite append_assoc_s; reflexivity).
  replace (Z.of_nat (String.length d) + 1)%Z
    with (Z.of_nat (String.length (d ++ String Posixpath.sep "")))
    by (rewrite length_append_s; simpl; lia).
  apply slice_from_suffix.
Qed.

Lemma path_split_bare name :
  contains name is_sep = false -> path_split name = ("", name).
Proof.
  intros Hn. unfold path_split. rewrite (rfind_absent _ Hn).
  change (-1 + 1)%Z with 0%Z. unfold Str.slice_to, slice_from.
  change (Z.to_nat 0) with 0%nat. rewrite Nat.sub_0_r, substring_whole.
  now destruct name.
Qed.

Lemma path_split_root_file name :
  contains name is_sep = false ->
  path_split (String Posixpath.sep name)
  = (String Posixpath.sep "", name).
Proof.
  intros Hn. unfold path_split.
  pose proof (rfind_last "" name Hn) as Hr. cbn [append String.length Z.of_nat] in Hr.
  rewrite Hr. change (0 + 1)%Z with 1%Z.
  f_equal.
  - unfold Str.slice_to. simpl. now destruct name.
  - apply (slice_from_suffix (String Posixpath.sep "") name).
Qed.

Lemma endswith_no_sep s :
  contains s is_sep = false -> Str.endswith s Posixpath.sep = false.
Proof.
  induction s as [|c s IH]; [reflexivity|].
  simpl. intros H. apply orb_false_iff in H as [Hc Hs].
  destruct s; [exact Hc | now apply IH].
Qed.

Lemma endswith_append a b c :
  b <> "" -> Str.endswith (a ++ b) c = Str.endswith b c.
Proof.
  intros Hb. induction a as [|x a IH]; [reflexivity|].
  cbn [append]. cbn [Str.endswith].
  destruct (a ++ b) eqn:E; [|exact IH].
  destruct a; simpl in E; [congruence | discriminate].
Qed.

Lemma str_join_snoc sep init last :
  init <> [] ->
  str_join sep (init ++ [last])%list = str_join sep init ++ sep ++ last.
Proof.
  induction init as [|x init IH]; intros H; [congruence|].
  destruct init as [|y init]; [reflexivity|].
  change (str_join sep ((x :: y :: init) ++ [last])%list)
    with (x ++ sep ++ str_join sep ((y :: init) ++ [last])%list).
  rewrite IH by discriminate.
  change (str_join sep (x :: y :: init)) with (x ++ sep ++ str_join sep (y :: init)).
  now rewrite !append_assoc_s.
Qed.

(** A path made of components ends with a component. *)
Lemma str_join_shape cs :
  cs <> [] -> forallb component cs = true ->
  str_join "/" cs <> "" /\ Str.endswith (str_join "/" cs) Posixpath.sep = false.
Proof.
  induction cs as [|x cs IH]; intros Hne Hc; [congruence|].
  cbn [forallb] in Hc. apply andb_true_iff in Hc as [Hx Hc].
  unfold component in Hx. apply andb_true_iff in Hx as [Hx1 Hx2].
  apply negb_true_iff in Hx1, Hx2.
  destruct cs as [|y cs].
  - cbn [str_join]. split; [now destruct x | now apply endswith_no_sep].
  - destruct (IH ltac:(discriminate) Hc) as [IH1 IH2].
    change (str_join "/" (x :: y :: cs)) with (x ++ "/" ++ str_join "/" (y :: cs)).
    split; [now destruct x|].
    rewrite endswith_append by discriminate.
    change ("/" ++ str_join "/" (y :: cs))
      with (String Posixpath.sep "" ++ str_join "/" (y :: cs)).
    rewrite endswith_append by exact IH1. exact IH2.
Qed.

Lemma fullsplit_fuel_join cs :
  cs <> [] -> forallb component cs = true ->
  forall root result n,
    root = "" \/ root = "/" ->
    (String.length (root ++ str_join "/" cs) < n)%nat ->
    fullsplit_fuel n (root ++ str_join "/" cs) result = Some (cs ++ result)%list.
Proof.
  induction cs as [|last init IH] using rev_ind; intros Hne Hc root result n Hroot Hn;
    [congruence|].
  rewrite forallb_app in Hc. apply andb_true_iff in Hc as [Hinit Hlast].
  cbn [forallb] in Hlast. rewrite andb_true_r in Hlast.
  unfold component in Hlast. apply andb_true_iff in Hlast as [Hl1 Hl2].
  apply negb_true_iff in Hl1, Hl2.
  destruct n as [|n]; [lia|]. cbn [fullsplit_fuel].
  destruct init as [|x init].
  - cbn [app str_join] in *. destruct Hroot as [-> | ->].
    + cbn [append]. rewrite (path_split_bare _ Hl2). reflexivity.
    + change ("/" ++ last) with (String Posixpath.sep last) in *.
      rewrite (path_split_root_file _ Hl2).
      destruct last as [|c last]; [discriminate|].
      cbn [String.eqb Ascii.eqb Bool.eqb]. simpl String.eqb.
      destruct n as [|n]; [cbn [String.length] in Hn; lia|]. reflexivity.
  - destruct (str_join_shape (x :: init) ltac:(discriminate) Hinit) as [Hs1 Hs2].
    rewrite str_join_snoc in * by discriminate.
    set (j := str_join "/" (x :: init)) in *.
    assert (Hd1 : root ++ j <> "") by (destruct Hroot as [-> | ->]; [exact Hs1 | discriminate]).
    assert (Hd2 : Str.endswith (root ++ j) Posixpath.sep = false)
      by (rewrite endswith_append; assumption).
    replace (root ++ j ++ "/" ++ last)
      with ((root ++ j) ++ String Posixpath.sep last) in *
      by (rewrite append_assoc_s; reflexivity).
    rewrite (path_split_file _ _ Hd1 Hd2 Hl2).
    apply String.eqb_neq in Hd1 as E1. rewrite E1.
    assert (E2 : String.eqb (root ++ j) ((root ++ j) ++ String Posixpath.sep last) = false).
    { apply String.eqb_neq. intros E. apply (f_equal String.length) in E.
      rewrite !length_append_s in E. cbn [String.length] in E. lia. }
    rewrite E2.
    rewrite (IH ltac:(discriminate) Hinit root ([last] ++ result)%list n Hroot).
    + now rewrite <- app_assoc.
    + rewrite !length_append_s in *. cbn [String.length] in Hn. lia.
Qed.

(** X5.  [fullsplit] undoes the joining of path components: for a
    non-empty list of components (non-empty, without separator) joined
    with ["/"], it returns the components in order, put before the start
    list when one is given; and an absolute path gives the same
    components as the relative one (the root is dropped). *)
Theorem fullsplit_join cs result :
  cs <> [] -> forallb component cs = true ->
  fullsplit (str_join "/" cs) result
  = Some (cs ++ match result with None => [] | Some r => r end)%list /\
  fullsplit ("/" ++ str_join "/" cs) result
  = Some (cs ++ match result with None => [] | Some r => r end)%list.
Proof.
  intros Hne Hc. unfold fullsplit. split.
  - apply (fullsplit_fuel_join cs Hne Hc "" _ _ (or_introl eq_refl)).
    cbn [append]. lia.
  - apply (fullsplit_fuel_join cs Hne Hc "/" _ _ (or_intror eq_refl)). lia.
Qed.

Lemma fullsplit_join_witness :
  fullsplit "sloth/gui/icons" None = Some ["sloth"; "gui"; "icons"] /\
  fullsplit "/sloth/gui/icons" None = Some ["sloth"; "gui"; "icons"].
Proof.
  apply (fullsplit_join ["sloth"; "gui"; "icons"] None).
  - discriminate.
  - reflexivity.
Defined.

(** X6.  The package name built from a directory path: for components
    joined with ["/"], it is the same components joined with ["."]. *)
Theorem package_name_of_components cs :
  cs <> [] -> forallb component cs = true ->
  package_name (str_join "/" cs) = Some (str_join "." cs).
Proof.
  intros Hne Hc. unfold package_name, fullsplit.
  pose proof (fullsplit_fuel_join cs Hne Hc "" []
                (S (String.length (str_join "/" cs))) (or_introl eq_refl)) as H.
  cbn [append] in H. rewrite H by lia.
  cbn [option_map]. now rewrite app_nil_r.
Qed.

Lemma package_name_of_components_witness :
  package_name "sloth/annotations" = Some "sloth.annotations".
Proof.
  apply (package_name_of_components ["sloth"; "annotations"]).
  - discriminate.
  - reflexivity.
Defined.

(* ================================================================== *)
(** * The factory: construction and dispatch *)
(* ================================================================== *)

Lemma resolved_length import_callable regs cs :
  resolved import_callable regs cs -> List.length cs = List.length regs.
Proof. induction 1; simpl; congruence. Qed.

(** X7.  A factory that could be built lists, with [patterns()], the
    patterns of the registrations in registration order, and holds one
    container per registration. *)
Theorem patterns_in_registration_order import_callable regs fac :
  init import_callable regs = Ok fac ->
  patterns fac = map fst regs /\
  List.length (containers_ fac) = List.length regs.
Proof.
  intros H. apply init_resolved in H. split.
  - now apply resolved_patterns with import_callable.
  - now apply resolved_length with import_callable.
Qed.

Lemma patterns_in_registration_order_witness :
  patterns (mkFactory
              [("*.json", class JsonContainer); ("*.yaml", class YamlContainer);
               ("*.txt", class FeretContainer); ("*", class PickleContainer)])
  = ["*.json"; "*.yaml"; "*.txt"; "*"] /\
  List.length (containers_ (mkFactory
              [("*.json", class JsonContainer); ("*.yaml", class YamlContainer);
               ("*.txt", class FeretContainer); ("*", class PickleContainer)]))
  = 4%nat.
Proof.
  apply (patterns_in_registration_order builtin_import demo_registrations).
  reflexivity.
Defined.

Lemma init_loop_direct import_callable cs : forall acc,
  init_loop import_callable (direct cs) acc = Ok (acc ++ cs)%list.
Proof.
  induction cs as [|[p c] cs IH]; intros acc; simpl.
  - now rewrite app_nil_r.
  - rewrite IH, <- app_assoc. reflexivity.
Qed.

(** X8.  Registrations that give the constructors themselves are stored
    as they are: the factory is always built, whatever the resolver of
    names would do, and holds exactly the given pairs. *)
Theorem init_direct import_callable cs :
  init import_callable (direct cs) = Ok (mkFactory cs).
Proof.
  unfold init. now rewrite init_loop_direct.
Qed.

Lemma init_loop_raises import_callable regs : forall acc e,
  init_loop import_callable regs acc = Raise e <->
  exists pre p it post cs,
    regs = (pre ++ (p, it) :: post)%list /\
    resolved import_callable pre cs /\
    resolve import_callable it = Raise e.
Proof.
  induction regs as [|[p it] regs IH]; intros acc e; simpl.
  - split; [discriminate|]. intros (pre & q & j & post & cs & E & _). destruct pre; discriminate.
  - destruct (resolve import_callable it) as [c|e0] eqn:Hr; simpl.
    + rewrite IH. split.
      * intros (pre & q & j & post & cs & -> & Hres & Hj).
        exists ((p, it) :: pre), q, j, post, ((p, c) :: cs).
        repeat split; auto. now constructor.
      * intros (pre & q & j & post & cs & E & Hres & Hj).
        destruct pre as [|[p0 it0] pre]; simpl in E.
        -- injection E as <- <- <-. congruence.
        -- injection E as <- <- ->. inversion Hres; subst.
           exists pre, q, j, post. eauto.
    + split.
      * intros [= <-]. exists [], p, it, regs, []. repeat split; auto. constructor.
      * intros (pre & q & j & post & cs & E & Hres & Hj).
        destruct pre as [|[p0 it0] pre]; simpl in E.
        -- injection E as <- <- <-. congruence.
        -- injection E as <- <- ->. inversion Hres; subst. congruence.
Qed.

(** X9.  Building the factory fails exactly when some registration
    cannot be resolved, and then with the exception of the first such
    registration: the ones before it resolve, the ones after it are not
    looked at. *)
Theorem init_raises_first_unresolved import_callable regs e :
  init import_callable regs = Raise e <->
  exists pre p it post cs,
    regs = (pre ++ (p, it) :: post)%list /\
    resolved import_callable pre cs /\
    resolve import_callable it = Raise e.
Proof.
  unfold init. rewrite <- (init_loop_raises import_callable regs [] e).
  destruct (init_loop import_callable regs []); simpl; split; congruence.
Qed.

Lemma init_raises_first_unresolved_witness :
  init builtin_import
       [("*.json", ItemCallable (class JsonContainer));
        ("*.xml", ItemStr "sloth.missing.XmlContainer");
        ("*.csv", ItemStr "sloth.missing.CsvContainer")]
  = Raise (ImproperlyConfigured "Error importing sloth.missing.XmlContainer").
Proof.
  apply (proj2 (init_raises_first_unresolved builtin_import _ _)).
  exists [("*.json", ItemCallable (class JsonContainer))], "*.xml",
    (ItemStr "sloth.missing.XmlContainer"),
    [("*.csv", ItemStr "sloth.missing.CsvContainer")],
    [("*.json", class JsonContainer)].
  repeat split. repeat constructor.
Defined.

Lemma create_loop_app cs more fn args kwargs :
  existsb (fun r => Fnmatch.fnmatch fn (fst r)) cs = true ->
  create_loop (cs ++ more)%list fn args kwargs = create_loop cs fn args kwargs.
Proof.
  induction cs as [|[p c] cs IH]; simpl; [discriminate|].
  destruct (Fnmatch.fnmatch fn p); [reflexivity | exact IH].
Qed.

Lemma existsb_map_s {A B} (f : A -> B) (g : B -> bool) l :
  existsb g (map f l) = existsb (fun x => g (f x)) l.
Proof. induction l as [|x l IH]; simpl; [reflexivity | now rewrite IH]. Qed.

(** X10.  Registering further containers after the existing ones never
    changes what [create] does for a filename that an existing pattern
    matches. *)
Theorem create_stable_under_append fac more fn args kwargs :
  existsb (Fnmatch.fnmatch fn) (patterns fac) = true ->
  create (mkFactory (containers_ fac ++ more)%list) fn args kwargs
  = create fac fn args kwargs.
Proof.
  intros H. unfold create. cbn [containers_]. apply create_loop_app.
  unfold patterns in H. now rewrite existsb_map_s in H.
Qed.

Lemma create_stable_under_append_witness :
  create (mkFactory ([("*.json", class JsonContainer)]
                     ++ [("*", class PickleContainer)])%list) "a.json" [] []
  = create (mkFactory [("*.json", class JsonContainer)]) "a.json" [] [].
Proof.
  apply (create_stable_under_append (mkFactory [("*.json", class JsonContainer)])
           [("*", class PickleContainer)] "a.json" [] []).
  reflexivity.
Defined.

(** ** Patterns without brackets or question marks *)

Lemma list_ascii_of_string_append a b :
  list_ascii_of_string (a ++ b)
  = (list_ascii_of_string a ++ list_ascii_of_string b)%list.
Proof. induction a as [|c a IH]; simpl; [reflexivity | now rewrite IH]. Qed.

Lemma string_of_list_ascii_app l1 l2 :
  string_of_list_ascii (l1 ++ l2)%list
  = string_of_list_ascii l1 ++ string_of_list_ascii l2.
Proof. induction l1 as [|c l1 IH]; simpl; [reflexivity | now rewrite IH]. Qed.

Lemma contains_existsb s P :
  contains s P = existsb P (list_ascii_of_string s).
Proof. induction s as [|c s IH]; simpl; [reflexivity | now rewrite IH]. Qed.

Lemma tokens_literal l : forall n,
  (List.length l <= n)%nat -> existsb is_meta l = false ->
  Fnmatch.tokens n l = map Fnmatch.Lit l.
Proof.
  induction l as [|c l IH]; intros n Hn Hm.
  - now destruct n.
  - destruct n as [|n]; [simpl in Hn; lia|].
    simpl in Hm. apply orb_false_iff in Hm as [Hc Hl].
    unfold is_meta in Hc. apply orb_false_iff in Hc as [Hc H3].
    apply orb_false_iff in Hc as [H1 H2].
    simpl. rewrite H1, H2, H3. f_equal. apply IH; [simpl in Hn; lia | exact Hl].
Qed.

Lemma matches_literal l : forall s,
  Fnmatch.matches (map Fnmatch.Lit l) s = true <-> s = l.
Proof.
  induction l as [|c l IH]; intros s; simpl.
  - destruct s; split; congruence.
  - destruct s as [|d s]; [split; congruence|].
    rewrite andb_true_iff, IH, Ascii.eqb_eq. split.
    + now intros [-> ->].
    + now intros [= -> ->].
Qed.

Lemma matches_star_unfold ts s :
  Fnmatch.matches (Fnmatch.Star :: ts) s
  = Fnmatch.matches ts s
    || match s with
       | [] => false
       | _ :: s' => Fnmatch.matches (Fnmatch.Star :: ts) s'
       end.
Proof. destruct s; reflexivity. Qed.

Lemma matches_star ts s :
  Fnmatch.matches (Fnmatch.Star :: ts) s = true <->
  exists pre post, s = (pre ++ post)%list /\ Fnmatch.matches ts post = true.
Proof.
  induction s as [|c s IH]; rewrite matches_star_unfold.
  - rewrite orb_false_r. split.
    + intros H. now exists [], [].
    + intros (pre & post & E & H). symmetry in E.
      apply app_eq_nil in E as [-> ->]. exact H.
  - rewrite orb_true_iff, IH. split.
    + intros [H | (pre & post & -> & H)].
      * now exists [], (c :: s).
      * now exists (c :: pre), post.
    + intros (pre & post & E & H). destruct pre as [|d pre]; simpl in E.
      * left. now rewrite E.
      * injection E as -> ->. right. now exists pre, post.
Qed.

Lemma translate_star_suffix suffix :
  contains suffix is_meta = false ->
  Fnmatch.translate ("*" ++ suffix)
  = Fnmatch.Star :: map Fnmatch.Lit (list_ascii_of_string suffix).
Proof.
  intros H. unfold Fnmatch.translate. cbn [append list_ascii_of_string].
  cbn [List.length Fnmatch.tokens]. cbn [Ascii.eqb Bool.eqb]. simpl Ascii.eqb.
  f_equal. apply tokens_literal; [lia|]. now rewrite <- contains_existsb.
Qed.

(** X11.  Dispatch by extension: a pattern made of a star and a suffix
    without [*], [?] or [[] matches exactly the filenames that end with
    the suffix (directories and case included), and a pattern without any
    of these characters matches only the filename equal to it. *)
Theorem fnmatch_suffix_pattern suffix fn :
  contains suffix is_meta = false ->
  (Fnmatch.fnmatch fn ("*" ++ suffix) = true <-> exists stem, fn = stem ++ suffix) /\
  (Fnmatch.fnmatch fn suffix = true <-> fn = suffix).
Proof.
  intros H. unfold Fnmatch.fnmatch. split.
  - rewrite (translate_star_suffix suffix H), matches_star. split.
    + intros (pre & post & E & Hm). apply matches_literal in Hm. subst post.
      exists (string_of_list_ascii pre).
      rewrite <- (string_of_list_ascii_of_string fn), E, string_of_list_ascii_app.
      now rewrite string_of_list_ascii_of_string.
    + intros [stem ->]. exists (list_ascii_of_string stem), (list_ascii_of_string suffix).
      split; [apply list_ascii_of_string_append | now apply matches_literal].
  - unfold Fnmatch.translate.
    rewrite tokens_literal by (try lia; now rewrite <- contains_existsb).
    rewrite matches_literal. split.
    + intros E. rewrite <- (string_of_list_ascii_of_string fn), E.
      apply string_of_list_ascii_of_string.
    + now intros ->.
Qed.

Lemma fnmatch_suffix_pattern_witness :
  (Fnmatch.fnmatch "labels/faces.json" ("*" ++ ".json") = true
   <-> exists stem, "labels/faces.json" = stem ++ ".json") /\
  (Fnmatch.fnmatch "labels/faces.json" ".json" = true
   <-> "labels/faces.json" = ".json").
Proof.
  apply (fnmatch_suffix_pattern ".json" "labels/faces.json"). reflexivity.
Defined.

Lemma fnmatch_star fn : Fnmatch.fnmatch fn "*" = true.
Proof.
  unfold Fnmatch.fnmatch. change (Fnmatch.translate "*") with [Fnmatch.Star].
  apply matches_star. exists (list_ascii_of_string fn), [].
  split; [now rewrite app_nil_r | reflexivity].
Qed.

(** X12.  A factory with the pattern ["*"] among its registrations has
    a container for every filename: [create] always calls a registered
    container whose pattern matches, and never reports that none is
    registered. *)
Theorem create_with_catch_all fac fn args kwargs :
  In "*" (patterns fac) ->
  exists p c,
    In (p, c) (containers_ fac) /\
    Fnmatch.fnmatch fn p = true /\
    create fac fn args kwargs = c args kwargs.
Proof.
  unfold patterns, create. induction (containers_ fac) as [|[q d] cs IH]; simpl.
  - intros [].
  - intros H. destruct (Fnmatch.fnmatch fn q) eqn:Hq.
    + exists q, d. auto.
    + destruct H as [E | H]; [subst q; now rewrite fnmatch_star in Hq|].
      destruct (IH H) as (p & c & Hin & Hp & Hc). exists p, c. auto.
Qed.

Lemma create_with_catch_all_witness :
  exists p c,
    In (p, c) [("*.json", class JsonContainer); ("*", class PickleContainer)] /\
    Fnmatch.fnmatch "faces.dat" p = true /\
    create (mkFactory [("*.json", class JsonContainer); ("*", class PickleContainer)])
           "faces.dat" [] [] = c [] [].
Proof.
  apply (create_with_catch_all
           (mkFactory [("*.json", class JsonContainer); ("*", class PickleContainer)])
           "faces.dat" [] []).
  right. left. reflexivity.
Defined.

(* ================================================================== *)
(** * What [load] and [save] do to the object and to the files *)
(* ================================================================== *)

Lemma quiet_ret {A} (a : A) : quiet (ret a).
Proof. intros s; reflexivity. Qed.

Lemma quiet_raise {A} e : quiet (@raise A e).
Proof. intros s; reflexivity. Qed.

Lemma quiet_lift {A} (r : result A) : quiet (lift r).
Proof. intros s; reflexivity. Qed.

Lemma quiet_read f : quiet (read f).
Proof. destruct f; intros s; reflexivity. Qed.

Lemma quiet_bind {A B} (m : M A) (k : A -> M B) :
  quiet m -> (forall a, quiet (k a)) -> quiet (bind m k).
Proof.
  intros Hm Hk s. unfold bind. specialize (Hm s).
  destruct (m s) as [s' [a|e]]; simpl in *; subst s'; [apply Hk | reflexivity].
Qed.

Lemma quiet_lib_loads_pure c text : quiet (lib_loads (of_pure c) text).
Proof. intros [c0 w]. reflexivity. Qed.

Lemma quiet_codec_load c f : quiet (codec_load (of_pure c) f).
Proof.
  unfold codec_load.
  apply quiet_bind; [apply quiet_read | intros; apply quiet_lib_loads_pure].
Qed.

Lemma fst_bind_quiet {A B} (m : M A) (k : A -> M B) s :
  (forall a, quiet (k a)) -> fst (bind m k s) = fst (m s).
Proof.
  intros Hk. unfold bind. destruct (m s) as [s' [a|e]]; simpl; [apply Hk | reflexivity].
Qed.

Lemma open_read_fst p m s :
  is_write m = false ->
  fst (open (Some p) m s) = mkState (self s) (after (env s) (EvOpen p m)).
Proof.
  intros Hm. unfold open, bind, emit, ret, raise. cbn [env self files]. rewrite Hm.
  destruct (lookup (files (env s)) p); [|reflexivity].
  destruct (Str.is_empty p); reflexivity.
Qed.

Lemma world_eta w : w = mkWorld (files w) (readonly w) (trace w ++ [])%list.
Proof. destruct w. simpl. now rewrite app_nil_r. Qed.

(** A parse primitive that runs no library code of the executing kind
    opens at most one file, the one it is given, for reading, and changes
    no file. *)
Lemma parseFromFile_env L fn s :
  parses_plainly (cls (self s)) = true ->
  exists opens,
    forallb (is_read_of fn) opens = true /\
    (List.length opens <= 1)%nat /\
    env (fst (parseFromFile L (Some fn) s))
    = mkWorld (files (env s)) (readonly (env s)) (trace (env s) ++ opens)%list.
Proof.
  assert (Hone : forall m, is_write m = false ->
            forallb (is_read_of fn) [EvOpen fn m] = true /\
            (List.length [EvOpen fn m] <= 1)%nat).
  { intros m Hm. simpl. rewrite String.eqb_refl, Hm. auto. }
  unfold parseFromFile. destruct (cls (self s)); intros Hk; try discriminate.
  - exists []. repeat split; auto. apply world_eta.
  - exists [EvOpen fn ModeR]. destruct (Hone ModeR eq_refl). repeat split; auto.
    unfold JsonContainer_parseFromFile.
    rewrite fst_bind_quiet by (intros; apply quiet_codec_load).
    now rewrite open_read_fst.
  - exists [EvOpen fn ModeR]. destruct (Hone ModeR eq_refl). repeat split; auto.
    unfold FileNameListContainer_parseFromFile.
    unfold bind at 1. unfold set_basedir_ at 1. cbn [fst snd].
    rewrite fst_bind_quiet
      by (intros; apply quiet_bind; [apply quiet_read | intros; apply quiet_ret]).
    now rewrite open_read_fst.
  - exists [EvOpen fn ModeR]. destruct (Hone ModeR eq_refl). repeat split; auto.
    unfold FeretContainer_parseFromFile.
    rewrite fst_bind_quiet
      by (intros; apply quiet_bind; [apply quiet_read |];
          intros; apply quiet_bind; [apply quiet_lift | intros; apply quiet_ret]).
    now rewrite open_read_fst.
Qed.

(** X13.  On every container but the pickle and the YAML ones (whose
    libraries run what the file names), [load] never changes a file.  Its
    effects are, in this order: one reading of the clock; at most one
    [open], of the file it was asked for and for reading; and, only when
    the parse succeeded, a second reading of the clock and the log record.
    A failed [load] logs nothing. *)
Theorem load_effects L fn s :
  parses_plainly (cls (self s)) = true ->
  fn <> "" ->
  files (env (fst (load L (Some fn) s))) = files (env s) /\
  readonly (env (fst (load L (Some fn) s))) = readonly (env s) /\
  exists opens,
    forallb (is_read_of fn) opens = true /\
    (List.length opens <= 1)%nat /\
    trace (env (fst (load L (Some fn) s)))
    = (trace (env s) ++ [EvClock] ++ opens
       ++ (if is_ok (snd (load L (Some fn) s)) then [EvClock; EvLogInfo fn] else []))%list.
Proof.
  intros Hk Hfn. rewrite (load_unfold L fn s Hfn).
  destruct (parseFromFile_env L fn (at_parse fn s) Hk) as (opens & Ho & Hl & He).
  destruct (parseFromFile L (Some fn) (at_parse fn s)) as [s2 [ann|e]];
    cbn [fst snd is_ok env files readonly trace] in *; rewrite He;
    cbn [files readonly trace at_parse env].
  - repeat split. exists opens. repeat split; auto.
    now rewrite <- !app_assoc.
  - repeat split. exists opens. repeat split; auto.
    now rewrite app_nil_r, <- app_assoc.
Qed.

Lemma load_effects_witness :
  files (env (fst (load plain_libraries (Some "notes.json")
                        (mkState (new JsonContainer) demo_world))))
  = files demo_world /\
  readonly (env (fst (load plain_libraries (Some "notes.json")
                           (mkState (new JsonContainer) demo_world))))
  = readonly demo_world /\
  exists opens,
    forallb (is_read_of "notes.json") opens = true /\
    (List.length opens <= 1)%nat /\
    trace (env (fst (load plain_libraries (Some "notes.json")
                          (mkState (new JsonContainer) demo_world))))
    = ([] ++ [EvClock] ++ opens
       ++ (if is_ok (snd (load plain_libraries (Some "notes.json")
                               (mkState (new JsonContainer) demo_world)))
           then [EvClock; EvLogInfo "notes.json"] else []))%list.
Proof.
  apply (load_effects plain_libraries "notes.json"
           (mkState (new JsonContainer) demo_world) eq_refl).
  discriminate.
Defined.

(** The restriction is needed: with a library that runs what the file
    names, loading a pickle leaves a file behind, and loading the same
    pickle twice gives two values. *)
Example load_pickle_may_write :
  lookup (files demo_world) "left_behind" = None /\
  lookup (files (env (fst (load running_libraries (Some "notes.json")
                                (mkState (new PickleContainer) demo_world)))))
         "left_behind" = Some "hello".
Proof. split; reflexivity. Qed.

Example load_pickle_may_vary :
  snd (load running_libraries (Some "notes.json")
            (mkState (new PickleContainer) demo_world)) = Ok (PInt 2) /\
  snd (load running_libraries (Some "notes.json")
            (fst (load running_libraries (Some "notes.json")
                       (mkState (new PickleContainer) demo_world)))) = Ok (PInt 6).
Proof. split; reflexivity. Qed.

(** The serialize primitive of the three containers that delegate to a
    library, case by case. *)
Lemma delegate_serialize L lib mr mw path v c w :
  delegate L (cls c) = Some (lib, mr, mw) ->
  serializeToFile L (Some path) v (mkState c w)
  = if Str.is_empty path || mem path (readonly w)
    then (mkState c (after w (EvOpen path mw)), Raise (IOError path))
    else match dumps lib v with
         | Ok text => (mkState c (written_in w path text mw), Ok tt)
         | Raise e => (mkState c (truncated w path mw), Raise e)
         end.
Proof.
  intros Hk. destruct c as [k f a b]. unfold serializeToFile. cbn [self cls] in *.
  destruct k; try discriminate; injection Hk as <- <- <-;
    unfold PickleContainer_serializeToFile, JsonContainer_serializeToFile,
      YamlContainer_serializeToFile, codec_dump,
      open, bind, emit, ret, raise, write, lift, put_file;
    cbn [self env files readonly is_write];
    (destruct (Str.is_empty path || mem path (readonly w)); [reflexivity|]);
    cbn;
    match goal with
    | |- context [match ?x with Ok _ => _ | Raise _ => _ end] => destruct x
    end; reflexivity.
Qed.

Lemma delegate_serialize_none L lib mr mw v c w :
  delegate L (cls c) = Some (lib, mr, mw) ->
  serializeToFile L None v (mkState c w)
  = (mkState c w,
     Raise (TypeError "expected str, bytes or os.PathLike object, not NoneType")).
Proof.
  intros Hk. destruct c as [k f a b]. unfold serializeToFile. cbn [self cls] in *.
  destruct k; try discriminate; reflexivity.
Qed.

Lemma delegate_parse L lib mr mw path c w :
  delegate L (cls c) = Some (lib, mr, mw) ->
  parseFromFile L (Some path) (mkState c w)
  = match lookup (files w) path with
    | Some text =>
        if Str.is_empty path
        then (mkState c (after w (EvOpen path mr)), Raise (IOError path))
        else (mkState c (fst (loads lib text (after w (EvOpen path mr)))),
              snd (loads lib text (after w (EvOpen path mr))))
    | None => (mkState c (after w (EvOpen path mr)), Raise (IOError path))
    end.
Proof.
  intros Hk. destruct c as [k f a b]. unfold parseFromFile. cbn [self cls] in *.
  destruct k; try discriminate; injection Hk as <- <- <-;
    unfold PickleContainer_parseFromFile, JsonContainer_parseFromFile,
      YamlContainer_parseFromFile, codec_load, lib_loads,
      open, bind, emit, ret, raise, read, lift; cbn [self env files is_write];
    (destruct (lookup (files w) path) as [text|]; [|reflexivity]);
    (destruct (Str.is_empty path); [reflexivity|]);
    unfold after; cbn;
    try match goal with
        | |- context [loads ?c ?x ?y] => destruct (loads c x y) as [w' [v|e]]
        end; reflexivity.
Qed.

(** The serialize primitives never touch [filename_]. *)
Lemma serializeToFile_filename_ L fn v s :
  filename_ (self (fst (serializeToFile L fn v s))) = filename_ (self s).
Proof.
  unfold serializeToFile. destruct (cls (self s)).
  - apply (@keeps_raise unit).
  - unfold PickleContainer_serializeToFile, codec_dump. revert s.
    fold (@keeps_filename_ unit). keeps.
  - unfold JsonContainer_serializeToFile, codec_dump. revert s.
    fold (@keeps_filename_ unit). keeps.
  - unfold YamlContainer_serializeToFile, codec_dump. revert s.
    fold (@keeps_filename_ unit). keeps.
  - reflexivity.
  - reflexivity.
Qed.

(** X14.  [save] rebinds the container only when the serialize
    primitive succeeded: after a successful [save] the bound path is the
    target (the argument, or the path bound before when the argument is
    empty); after a failed [save] the bound path is the one from before,
    for every class and every failure. *)
Theorem save_binds_only_on_success L v g s :
  filename (self (fst (save L v g s)))
  = if is_ok (snd (save L v g s)) then save_target (self s) g
    else filename (self s).
Proof.
  unfold save, save_target, bind.
  pose proof (serializeToFile_filename_ L
                (if py_not g then filename (self s) else g) v s) as Hk.
  destruct (serializeToFile L (if py_not g then filename (self s) else g) v s)
    as [s1 [u|e]]; cbn [fst snd is_ok] in *.
  - reflexivity.
  - exact Hk.
Qed.

(** X15.  [save] without any path, on a container that was never bound
    and with an empty or missing filename, fails for the pickle, JSON and
    YAML containers with the [TypeError] of [open(None)]: nothing is
    opened or written and the container stays unbound. *)
Theorem save_without_any_path L lib mr mw v g s :
  delegate L (cls (self s)) = Some (lib, mr, mw) ->
  filename (self s) = None ->
  g = None \/ g = Some "" ->
  save L v g s
  = (s, Raise (TypeError "expected str, bytes or os.PathLike object, not NoneType")).
Proof.
  intros Hk Hf Hg. apply py_not_true in Hg.
  unfold save. rewrite Hg, Hf. unfold bind.
  destruct s as [c w]. cbn [self] in *.
  now rewrite (delegate_serialize_none L lib mr mw v c w Hk).
Qed.

Lemma save_without_any_path_witness :
  save plain_libraries (PStr "hello") None (mkState (new PickleContainer) demo_world)
  = (mkState (new PickleContainer) demo_world,
     Raise (TypeError "expected str, bytes or os.PathLike object, not NoneType")).
Proof.
  apply (save_without_any_path plain_libraries (of_pure plain_codec) ModeRB ModeWB
           (PStr "hello") None (mkState (new PickleContainer) demo_world)
           eq_refl eq_refl).
  left. reflexivity.
Defined.

(** X16.  [save] to a path that cannot be opened for writing fails
    with the error of [open]; the files are as they were, the only effect
    is the attempt to open, and the container keeps its binding. *)
Theorem save_unwritable L lib mr mw v g c w t :
  delegate L (cls c) = Some (lib, mr, mw) ->
  save_target c g = Some t ->
  mem t (readonly w) = true ->
  save L v g (mkState c w)
  = (mkState c (after w (EvOpen t mw)), Raise (IOError t)).
Proof.
  intros Hk Ht Hro. unfold save, bind. cbn [self].
  unfold save_target in Ht. rewrite Ht.
  rewrite (delegate_serialize L lib mr mw t v c w Hk), Hro, orb_true_r.
  reflexivity.
Qed.

Lemma save_unwritable_witness :
  save plain_libraries (PStr "x") (Some "/etc/passwd")
       (mkState (bound_to JsonContainer "notes.json") demo_world)
  = (mkState (bound_to JsonContainer "notes.json")
             (after demo_world (EvOpen "/etc/passwd" ModeW)),
     Raise (IOError "/etc/passwd")).
Proof.
  apply (save_unwritable plain_libraries (of_pure plain_codec) ModeR ModeW (PStr "x")
           (Some "/etc/passwd") (bound_to JsonContainer "notes.json") demo_world
           "/etc/passwd" eq_refl eq_refl eq_refl).
Defined.

Lemma lookup_other files p q text :
  p <> q -> lookup ((q, text) :: files) p = lookup files p.
Proof.
  intros H. simpl. destruct (String.eqb q p) eqn:E; [|reflexivity].
  apply String.eqb_eq in E. congruence.
Qed.

(** X17.  [save] changes no file but its target: every other path
    reads after [save] as it read before, whether [save] succeeded or
    not, for every class. *)
Theorem save_leaves_other_files L v g s p :
  save_target (self s) g <> Some p ->
  lookup (files (env (fst (save L v g s)))) p = lookup (files (env s)) p.
Proof.
  intros Hp. unfold save, bind. unfold save_target in Hp.
  set (target := if py_not g then filename (self s) else g) in *.
  assert (H : lookup (files (env (fst (serializeToFile L target v s)))) p
              = lookup (files (env s)) p).
  { destruct s as [c w]. cbn [self env] in *.
    destruct (delegate L (cls c)) as [[[lib mr] mw]|] eqn:Hk.
    - destruct target as [t|].
      + rewrite (delegate_serialize L lib mr mw t v c w Hk).
        assert (Hne : p <> t) by congruence.
        destruct (Str.is_empty t || mem t (readonly w)); [reflexivity|].
        destruct (dumps lib v); cbn [fst env files written_in truncated];
          now rewrite ?lookup_other by exact Hne.
      + now rewrite (delegate_serialize_none L lib mr mw v c w Hk).
    - destruct c as [k f a b]. unfold serializeToFile. cbn [self cls] in *.
      destruct k; try discriminate; reflexivity. }
  destruct (serializeToFile L target v s) as [s1 [u|e]]; exact H.
Qed.

Lemma save_leaves_other_files_witness :
  lookup (files (env (fst (save plain_libraries (PStr "x") (Some "copy.json")
                                (mkState (new JsonContainer) demo_world)))))
         "notes.json"
  = lookup (files demo_world) "notes.json".
Proof.
  apply (save_leaves_other_files plain_libraries (PStr "x") (Some "copy.json")
           (mkState (new JsonContainer) demo_world) "notes.json").
  discriminate.
Defined.

(** X18.  For the pickle, JSON and YAML containers: a value that the
    library writes as a text it reads back as the same value can be saved
    to any writable path and loaded from it again, by the same container
    or by another of the same class; the result is the value saved. *)
Theorem save_then_load L lib mr mw v text g c w t :
  delegate L (cls c) = Some (lib, mr, mw) ->
  dumps lib v = Ok text ->
  (forall w', snd (loads lib text w') = Ok v) ->
  save_target c g = Some t -> t <> "" ->
  mem t (readonly w) = false ->
  save L v g (mkState c w)
  = (mkState (mkContainer (cls c) (Some t) (annotations_ c) (basedir_ c))
             (written_in w t text mw), Ok tt) /\
  forall c', cls c' = cls c ->
    snd (load L (Some t) (mkState c' (written_in w t text mw))) = Ok v.
Proof.
  intros Hk Hd Hl Ht Hne Hro.
  assert (He : Str.is_empty t = false) by (destruct t; [congruence | reflexivity]).
  split.
  - unfold save, bind. cbn [self]. unfold save_target in Ht. rewrite Ht.
    rewrite (delegate_serialize L lib mr mw t v c w Hk), He, Hro, Hd.
    reflexivity.
  - intros c' Hc'. rewrite (load_unfold L t _ Hne). unfold at_parse. cbn [self env].
    rewrite (delegate_parse L lib mr mw) by (cbn [cls]; congruence).
    unfold written_in. cbn [files lookup]. rewrite String.eqb_refl, He.
    cbn [fst snd]. rewrite Hl.
    match goal with
    | |- context [fst (loads ?c ?x ?y)] => destruct (loads c x y)
    end.
    reflexivity.
Qed.

Lemma save_then_load_witness :
  save plain_libraries (PStr "faces") (Some "faces.pickle")
       (mkState (new PickleContainer) demo_world)
  = (mkState (mkContainer PickleContainer (Some "faces.pickle") [] None)
             (written_in demo_world "faces.pickle" "faces" ModeWB), Ok tt) /\
  forall c', cls c' = PickleContainer ->
    snd (load plain_libraries (Some "faces.pickle")
              (mkState c' (written_in demo_world "faces.pickle" "faces" ModeWB)))
    = Ok (PStr "faces").
Proof.
  apply (save_then_load plain_libraries (of_pure plain_codec) ModeRB ModeWB
           (PStr "faces") "faces" (Some "faces.pickle") (new PickleContainer)
           demo_world "faces.pickle" eq_refl eq_refl).
  - intros w'. reflexivity.
  - reflexivity.
  - discriminate.
  - reflexivity.
Defined.

(** X19.  The base class has no format: [load] on an
    [AnnotationContainer] raises [NotImplementedException] once the
    filename is bound and the clock read, without opening any file, and
    [save] raises it without changing anything. *)
Theorem base_container_not_implemented L fn v g c w :
  cls c = AnnotationContainer ->
  fn <> "" ->
  (exists msg,
      load L (Some fn) (mkState c w)
      = (at_parse fn (mkState c w), Raise (NotImplementedException msg))) /\
  (exists msg,
      save L v g (mkState c w) = (mkState c w, Raise (NotImplementedException msg))).
Proof.
  intros Hc Hfn. split.
  - rewrite (load_unfold L fn _ Hfn). unfold parseFromFile, at_parse.
    cbn [self cls]. rewrite Hc. eexists. reflexivity.
  - unfold save, bind, serializeToFile. cbn [self]. rewrite Hc. eexists. reflexivity.
Qed.

Lemma base_container_not_implemented_witness :
  (exists msg,
      load plain_libraries (Some "notes.json")
           (mkState (new AnnotationContainer) demo_world)
      = (at_parse "notes.json" (mkState (new AnnotationContainer) demo_world),
         Raise (NotImplementedException msg))) /\
  (exists msg,
      save plain_libraries (PStr "x") (Some "notes.json")
           (mkState (new AnnotationContainer) demo_world)
      = (mkState (new AnnotationContainer) demo_world,
         Raise (NotImplementedException msg))).
Proof.
  apply (base_container_not_implemented plain_libraries "notes.json" (PStr "x")
           (Some "notes.json") (new AnnotationContainer) demo_world eq_refl).
  discriminate.
Defined.

Lemma filenamelist_parse_self L fn c w :
  cls c = FileNameListContainer ->
  self (fst (parseFromFile L (Some fn) (mkState c w)))
  = mkContainer (cls c) (filename_ c) (annotations_ c) (Some (Posixpath.dirname fn)).
Proof.
  intros Hc. unfold parseFromFile. cbn [self]. rewrite Hc.
  unfold FileNameListContainer_parseFromFile.
  unfold bind at 1. unfold set_basedir_ at 1. cbn [fst snd self env].
  rewrite fst_bind_quiet
    by (intros; apply quiet_bind; [apply quiet_read | intros; apply quiet_ret]).
  rewrite open_read_fst by reflexivity. cbn [self]. now rewrite Hc.
Qed.

(** X20.  Loading a list of filenames records the directory of the list
    file in [basedir_], before the file is opened and so also when it
    cannot be opened; it is the directory against which [_fullpath]
    resolves afterwards. *)
Theorem filenamelist_basedir L fn c w p :
  cls c = FileNameListContainer ->
  fn <> "" ->
  basedir_ (self (fst (load L (Some fn) (mkState c w))))
  = Some (Posixpath.dirname fn) /\
  _fullpath (self (fst (load L (Some fn) (mkState c w)))) p
  = Posixpath.join (Posixpath.dirname fn) p.
Proof.
  intros Hc Hfn.
  pose proof (parseFromFile_filename_ L (Some fn) (at_parse fn (mkState c w))) as Hf.
  pose proof (filenamelist_parse_self L fn
                (mkContainer (cls c) (Some fn) (annotations_ c) (basedir_ c))
                (mkWorld (files w) (readonly w) (trace w ++ [EvClock])%list) Hc) as Hs.
  rewrite (load_unfold L fn _ Hfn). unfold at_parse in *. cbn [self env] in *.
  destruct (parseFromFile L (Some fn) _) as [s2 [ann|e]];
    cbn [fst self] in *; unfold _fullpath, filename; rewrite Hs; cbn [basedir_ filename_];
    auto.
Qed.

Lemma filenamelist_basedir_witness :
  basedir_ (self (fst (load plain_libraries (Some "labels/missing.txt")
                            (mkState (new FileNameListContainer) demo_world))))
  = Some (Posixpath.dirname "labels/missing.txt") /\
  _fullpath (self (fst (load plain_libraries (Some "labels/missing.txt")
                             (mkState (new FileNameListContainer) demo_world))))
            "a.jpg"
  = Posixpath.join (Posixpath.dirname "labels/missing.txt") "a.jpg".
Proof.
  apply (filenamelist_basedir plain_libraries "labels/missing.txt"
           (new FileNameListContainer) demo_world "a.jpg" eq_refl).
  discriminate.
Defined.

(* ================================================================== *)
(** * Feret files that parse *)
(* ================================================================== *)

Lemma feret_loop_records lines : forall acc records,
  feret_loop lines acc = Ok records ->
  exists rs,
    records = (acc ++ rs)%list /\
    Forall2 (fun line r => feret_fileitem line = Ok r) lines rs.
Proof.
  induction lines as [|l lines IH]; intros acc records H; simpl in H.
  - injection H as <-. exists []. split; [now rewrite app_nil_r | constructor].
  - destruct (feret_fileitem l) as [v|e] eqn:Hl; simpl in H; [|discriminate].
    destruct (IH _ _ H) as (rs & -> & Hrs).
    exists (v :: rs). split; [now rewrite <- app_assoc | now constructor].
Qed.

(** X21.  A Feret file without malformed line parses: the result is a
    list with one record per line of the file, in file order, the record
    of a line being what the loop body builds from this line alone. *)
Theorem feret_wellformed_file L path text c w :
  cls c = FeretContainer ->
  lookup (files w) path = Some text -> path <> "" ->
  existsb feret_malformed (Str.readlines text) = false ->
  exists records,
    snd (parseFromFile L (Some path) (mkState c w)) = Ok (PList records) /\
    List.length records = List.length (Str.readlines text) /\
    Forall2 (fun line r => feret_fileitem line = Ok r) (Str.readlines text) records.
Proof.
  intros Hc Hl Hp Hm. rewrite (feret_parse L path text c w Hc Hl Hp). cbn [snd].
  destruct (feret_loop_wellformed _ [] Hm) as (records & Hloop & Hlen).
  rewrite Hloop. cbn [app]. exists records. repeat split; auto.
  destruct (feret_loop_records _ _ _ Hloop) as (rs & E & Hrs).
  cbn [app] in E. now subst rs.
Qed.

Lemma feret_wellformed_file_witness :
  exists records,
    snd (parseFromFile plain_libraries (Some "labels/faces.txt")
           (mkState (new FeretContainer) demo_world)) = Ok (PList records) /\
    List.length records = List.length (Str.readlines "s0001 10 20 30 20 20 40") /\
    Forall2 (fun line r => feret_fileitem line = Ok r)
            (Str.readlines "s0001 10 20 30 20 20 40") records.
Proof.
  apply (feret_wellformed_file plain_libraries "labels/faces.txt"
           "s0001 10 20 30 20 20 40" (new FeretContainer) demo_world
           eq_refl eq_refl).
  - discriminate.
  - reflexivity.
Defined.

(** X22.  The record of a line with at least seven columns, the columns
    1 to 6 being integers: its filename is column 0 followed by [.bmp]
    (whatever column 0 is), its points are the three pairs of integers
    with the classes [left_eye], [right_eye], [mouth], and the columns
    after the seventh play no part. *)
Theorem feret_fileitem_columns line c0 c1 c2 c3 c4 c5 c6 more x1 y1 x2 y2 x3 y3 :
  Str.split line = c0 :: c1 :: c2 :: c3 :: c4 :: c5 :: c6 :: more ->
  Str.int c1 = Ok x1 -> Str.int c2 = Ok y1 ->
  Str.int c3 = Ok x2 -> Str.int c4 = Ok y2 ->
  Str.int c5 = Ok x3 -> Str.int c6 = Ok y3 ->
  feret_fileitem line
  = Ok (PDict [("filename", PStr (c0 ++ ".bmp")); ("type", PStr "image");
               ("annotations",
                PList [point "left_eye" x1 y1; point "right_eye" x2 y2;
                       point "mouth" x3 y3])]).
Proof.
  intros Hs H1 H2 H3 H4 H5 H6. unfold feret_fileitem. rewrite Hs.
  cbn -[Str.int]. rewrite H1. cbn -[Str.int]. rewrite H2. cbn -[Str.int].
  rewrite H3. cbn -[Str.int]. rewrite H4. cbn -[Str.int]. rewrite H5.
  cbn -[Str.int]. rewrite H6. reflexivity.
Qed.

Lemma feret_fileitem_columns_witness :
  feret_fileitem "face.bmp -1 +2 3 4 5 6 left over"
  = Ok (PDict [("filename", PStr ("face.bmp" ++ ".bmp")); ("type", PStr "image");
               ("annotations",
                PList [point "left_eye" (-1) 2; point "right_eye" 3 4;
                       point "mouth" 5 6])]).
Proof.
  apply (feret_fileitem_columns "face.bmp -1 +2 3 4 5 6 left over"
           "face.bmp" "-1" "+2" "3" "4" "5" "6" ["left"; "over"]);
    reflexivity.
Defined.

Lemma split_from_white s : white s = true -> Str.split_from "" s = [].
Proof.
  unfold white. induction s as [|c s IH]; [reflexivity|].
  simpl. intros H. apply negb_true_iff, orb_false_iff in H as [Hc Hs].
  apply negb_false_iff in Hc. rewrite Hc. cbn [Str.is_empty].
  apply IH. now rewrite Hs.
Qed.

(** X23.  A Feret file with a line of white space only (an empty line
    between two records, or after the last one) does not parse: the
    parser raises, where the parser of filename lists would make a record
    with an empty filename. *)
Theorem feret_blank_line_fails L path text c w line :
  cls c = FeretContainer ->
  lookup (files w) path = Some text -> path <> "" ->
  In line (Str.readlines text) -> white line = true ->
  exists e, snd (parseFromFile L (Some path) (mkState c w)) = Raise e.
Proof.
  intros Hc Hl Hp Hin Hw. rewrite (feret_parse L path text c w Hc Hl Hp). cbn [snd].
  assert (Hm : existsb feret_malformed (Str.readlines text) = true).
  { apply existsb_exists. exists line. split; [exact Hin|].
    apply feret_short_line. unfold Str.split. rewrite (split_from_white _ Hw).
    simpl. lia. }
  destruct (feret_loop_malformed _ [] Hm) as (e & _ & _ & _ & _ & _ & _ & Hloop).
  exists e. now rewrite Hloop.
Qed.

Lemma feret_blank_line_fails_witness :
  exists e,
    snd (parseFromFile plain_libraries (Some "faces.txt")
           (mkState (new FeretContainer)
                    (mkWorld [("faces.txt",
                               "s0001 10 20 30 20 20 40" ++ Str.nl ++ Str.nl)] [] [])))
    = Raise e.
Proof.
  apply (feret_blank_line_fails plain_libraries "faces.txt"
           ("s0001 10 20 30 20 20 40" ++ Str.nl ++ Str.nl) (new FeretContainer)
           (mkWorld [("faces.txt",
                      "s0001 10 20 30 20 20 40" ++ Str.nl ++ Str.nl)] [] [])
           Str.nl eq_refl eq_refl).
  - discriminate.
  - right. left. reflexivity.
  - reflexivity.
Defined.

(* ================================================================== *)
(** * Media paths *)
(* ================================================================== *)

(** X24.  [loadImage] hands to the image library the path resolved
    against the label file: for a container bound to the label file
    [d/file], a relative path [p] is loaded from [d/p] (never from the
    working directory), an absolute path from itself; and an unbound
    container loads from the path as given. *)
Theorem loadImage_path {A} (okapy_loadImage : string -> result A) c d file p :
  (filename c = Some (d ++ String Posixpath.sep file) ->
   d <> "" -> Str.endswith d Posixpath.sep = false ->
   contains file is_sep = false ->
   Posixpath.isabs p = false ->
   loadImage okapy_loadImage c p = okapy_loadImage (d ++ "/" ++ p)) /\
  (Posixpath.isabs p = true ->
   loadImage okapy_loadImage c p = okapy_loadImage p) /\
  (filename c = None ->
   loadImage okapy_loadImage c p = okapy_loadImage p).
Proof.
  unfold loadImage. repeat split.
  - intros Hf Hne He Hn Hp. now rewrite (fullpath_of_file c d file p Hf Hne He Hn Hp).
  - intros Hp. unfold _fullpath. destruct (filename c); [|reflexivity].
    now rewrite (join_absolute _ _ Hp).
  - intros Hf. unfold _fullpath. now rewrite Hf.
Qed.

Lemma loadImage_path_witness :
  loadImage (fun path => Ok path)
            (bound_to JsonContainer "/data/labels/faces.json") "img/a.jpg"
  = Ok "/data/labels/img/a.jpg" /\
  loadImage (fun path => Ok path)
            (bound_to JsonContainer "/data/labels/faces.json") "/abs/a.jpg"
  = Ok "/abs/a.jpg" /\
  loadImage (fun path => Ok path) (new JsonContainer) "img/a.jpg"
  = Ok "img/a.jpg".
Proof.
  split; [|split].
  - apply (proj1 (loadImage_path (fun path => Ok path)
                    (bound_to JsonContainer "/data/labels/faces.json")
                    "/data/labels" "faces.json" "img/a.jpg"));
      (reflexivity || discriminate).
  - apply (proj1 (proj2 (loadImage_path (fun path => Ok path)
                    (bound_to JsonContainer "/data/labels/faces.json")
                    "" "" "/abs/a.jpg"))).
    reflexivity.
  - apply (proj2 (proj2 (loadImage_path (fun path => Ok path) (new JsonContainer)
                    "" "" "img/a.jpg"))).
    reflexivity.
Defined.

(* ================================================================== *)
(** * [load] reads the file and nothing else *)
(* ================================================================== *)

Lemma load_snd L fn s :
  fn <> "" ->
  snd (load L (Some fn) s) = snd (parseFromFile L (Some fn) (at_parse fn s)).
Proof.
  intros H. rewrite (load_unfold L fn s H).
  now destruct (parseFromFile L (Some fn) (at_parse fn s)) as [s2 [ann|e]].
Qed.

Lemma parseFromFile_snd_congr L fn s1 s2 :
  parses_plainly (cls (self s1)) = true ->
  cls (self s1) = cls (self s2) ->
  lookup (files (env s1)) fn = lookup (files (env s2)) fn ->
  snd (parseFromFile L (Some fn) s1) = snd (parseFromFile L (Some fn) s2).
Proof.
  destruct s1 as [[k1 f1 a1 b1] [fl1 ro1 tr1]], s2 as [[k2 f2 a2 b2] [fl2 ro2 tr2]].
  cbn [self env cls files]. intros Hk <- Hl.
  unfold parseFromFile. cbn [self cls].
  destruct k1; try discriminate;
    unfold AnnotationContainer_parseFromFile,
      JsonContainer_parseFromFile,
      FileNameListContainer_parseFromFile, FeretContainer_parseFromFile,
      codec_load, lib_loads, of_pure, open, bind, emit, ret, raise, read, lift,
      set_basedir_;
    cbn [self env files is_write cls filename_ annotations_ basedir_];
    try reflexivity;
    rewrite Hl; (destruct (lookup fl2 fn) as [text|]; [|reflexivity]);
    (destruct (Str.is_empty fn); [reflexivity|]); cbn;
    repeat match goal with
           | |- context [match ?x with Ok _ => _ | Raise _ => _ end] => destruct x
           end; reflexivity.
Qed.

Lemma parseFromFile_cls L fn s :
  parses_plainly (cls (self s)) = true ->
  cls (self (fst (parseFromFile L (Some fn) s))) = cls (self s).
Proof.
  unfold parseFromFile. destruct (cls (self s)) eqn:Hc; intros Hk; try discriminate.
  - exact Hc.
  - unfold JsonContainer_parseFromFile.
    rewrite fst_bind_quiet by (intros; apply quiet_codec_load).
    now rewrite open_read_fst.
  - unfold FileNameListContainer_parseFromFile.
    unfold bind at 1. unfold set_basedir_ at 1. cbn [fst snd].
    rewrite fst_bind_quiet
      by (intros; apply quiet_bind; [apply quiet_read | intros; apply quiet_ret]).
    now rewrite open_read_fst.
  - unfold FeretContainer_parseFromFile.
    rewrite fst_bind_quiet
      by (intros; apply quiet_bind; [apply quiet_read |];
          intros; apply quiet_bind; [apply quiet_lift | intros; apply quiet_ret]).
    now rewrite open_read_fst.
Qed.

(** X25.  On every container but the pickle and the YAML ones, what
    [load] returns or raises depends on the class of the container and on
    the content of the file only: not on the path the container was bound
    to, on its annotations, on the other files or on what happened
    before. *)
Theorem load_depends_on_file_only L fn s1 s2 :
  parses_plainly (cls (self s1)) = true ->
  fn <> "" ->
  cls (self s1) = cls (self s2) ->
  lookup (files (env s1)) fn = lookup (files (env s2)) fn ->
  snd (load L (Some fn) s1) = snd (load L (Some fn) s2).
Proof.
  intros Hk Hfn Hc Hl. rewrite !load_snd by exact Hfn.
  apply parseFromFile_snd_congr; assumption.
Qed.

Lemma load_depends_on_file_only_witness :
  snd (load plain_libraries (Some "labels/faces.txt")
            (mkState (new FeretContainer) demo_world))
  = snd (load plain_libraries (Some "labels/faces.txt")
              (mkState (bound_to FeretContainer "old.txt")
                       (mkWorld [("labels/faces.txt", "s0001 10 20 30 20 20 40")]
                                [] [EvClock]))).
Proof.
  apply (load_depends_on_file_only plain_libraries "labels/faces.txt"
           (mkState (new FeretContainer) demo_world)
           (mkState (bound_to FeretContainer "old.txt")
                    (mkWorld [("labels/faces.txt", "s0001 10 20 30 20 20 40")]
                             [] [EvClock]))).
  - reflexivity.
  - discriminate.
  - reflexivity.
  - reflexivity.
Defined.

(** X26.  On every container but the pickle and the YAML ones, nothing
    is cached and nothing is consumed: loading the same file again with
    the same container, right after a [load] that returned or raised,
    gives the same value or the same exception. *)
Theorem load_repeatable L fn s :
  parses_plainly (cls (self s)) = true ->
  fn <> "" ->
  snd (load L (Some fn) (fst (load L (Some fn) s))) = snd (load L (Some fn) s).
Proof.
  intros Hk Hfn. rewrite !load_snd by exact Hfn.
  assert (Hc : cls (self (fst (load L (Some fn) s))) = cls (self s)).
  { rewrite (load_unfold L fn s Hfn).
    pose proof (parseFromFile_cls L fn (at_parse fn s) Hk) as Hc.
    destruct (parseFromFile L (Some fn) (at_parse fn s)) as [s2 [ann|e]];
      cbn [fst self cls at_parse] in *; exact Hc. }
  apply parseFromFile_snd_congr.
  - cbn [at_parse self cls]. now rewrite Hc.
  - cbn [at_parse self cls]. exact Hc.
  - rewrite (load_unfold L fn s Hfn).
    destruct (parseFromFile_env L fn (at_parse fn s) Hk) as (opens & _ & _ & He).
    destruct (parseFromFile L (Some fn) (at_parse fn s)) as [s2 [ann|e]];
      cbn [fst env files at_parse] in *; rewrite He; reflexivity.
Qed.

Lemma load_repeatable_witness :
  snd (load plain_libraries (Some "labels/list.txt")
            (fst (load plain_libraries (Some "labels/list.txt")
                       (mkState (new FileNameListContainer) demo_world))))
  = snd (load plain_libraries (Some "labels/list.txt")
              (mkState (new FileNameListContainer) demo_world)).
Proof.
  apply (load_repeatable plain_libraries "labels/list.txt"
           (mkState (new FileNameListContainer) demo_world) eq_refl).
  discriminate.
Defined.
